(** * OpenID JWT validation (pkg/iam/openid/jwt.go): model and properties

    The development embeds the key store refresh ([PopulatePublicKey]), the
    expiry policy ([GetDefaultExpiration], [expToInt64]), the token validator
    ([Validate]) and the configuration lookup ([LookupConfig]) of
    [pkg/iam/openid/jwt.go].

    Effects are explicit: a state monad threads the receiver's fields
    ([URL], [publicKeys], [closeRespFn]), the number of HTTP requests and
    clock reads made so far (the environment answers the n-th request and
    the n-th clock read through two oracles) and a trace of the calls a run
    performs. A call yields a value, an error or a panic. The token library
    and the standard library are modelled as far as the code calls them:
    [strconv.ParseInt] and [strconv.FormatInt] in full, the parser of the
    token library by its stages, with decoding and cryptography left to the
    environment. *)

From Stdlib Require Import ZArith Lia Bool List Ascii String.
From Stdlib Require Import Floats.SpecFloat.
From stdpp Require Import base option strings gmap fin_maps.

Local Open Scope string_scope.
Local Open Scope Z_scope.

(** ** Machine integers *)

Definition minInt64 : Z := - 2 ^ 63.
Definition maxInt64 : Z := 2 ^ 63 - 1.
Definition maxUint64 : Z := 2 ^ 64 - 1.

Definition in_int64 (z : Z) : bool := (minInt64 <=? z) && (z <=? maxInt64).

(** Two's complement wrap-around of an [int64] result. *)
Definition wrap64 (z : Z) : Z := (z + 2 ^ 63) mod 2 ^ 64 - 2 ^ 63.

(** Saturation at the ends of [int64], as [time.Time.Sub] does. *)
Definition sat64 (z : Z) : Z :=
  if z <? minInt64 then minInt64 else if maxInt64 <? z then maxInt64 else z.

(** ** Errors *)

(** The reasons [strconv] reports in a [*NumError]. *)
Inductive NumErr : Type := ErrSyntax | ErrRange.

(** Bits of [jwtgo.ValidationError.Errors] set by the parser itself. *)
Definition ValidationErrorMalformed : Z := 1.
Definition ValidationErrorUnverifiable : Z := 2.
Definition ValidationErrorSignatureInvalid : Z := 4.

Inductive Error : Type :=
| ErrInvalidDuration                    (* openid.ErrInvalidDuration *)
| ErrTokenExpired                       (* openid.ErrTokenExpired *)
| ErrorsNew (msg : string)              (* errors.New, fmt.Errorf *)
| NumError (e : NumErr)                 (* *strconv.NumError *)
| TransportError (msg : string)         (* error of http.Client.Get *)
| DecodeError (msg : string)            (* JSON or key material decoding *)
| URLError (msg : string)               (* xnet.ParseURL *)
| ValidationError (flags : Z).          (* *jwtgo.ValidationError *)

(** What a call yields: Go's [(value, error)] pair, or a run-time panic. *)
Inductive Outcome (A : Type) : Type :=
| Ok (a : A)
| Err (e : Error)
| Panic.
Arguments Ok {A} a.
Arguments Err {A} e.
Arguments Panic {A}.

(** ** strconv *)

(** Value of a decimal digit byte, as the scanning loop of
    [strconv.ParseUint] computes it for base 10: letters give a value of at
    least 10 and every other byte none, both are syntax errors. *)
Definition digit_val (c : ascii) : option Z :=
  let n := Z.of_N (N_of_ascii c) in
  if (48 <=? n) && (n <=? 57) then Some (n - 48) else None.

(** The loop of [strconv.ParseUint(s, 10, 64)] over the bytes of [s],
    [n] being the value read so far. *)
Fixpoint parseUint_loop (s : string) (n : Z) : NumErr + Z :=
  match s with
  | EmptyString => inr n
  | String c s' =>
      match digit_val c with
      | None => inl ErrSyntax
      | Some d =>
          if maxUint64 <? n * 10 + d then inl ErrRange
          else parseUint_loop s' (n * 10 + d)
      end
  end.

Definition ParseUint10 (s : string) : NumErr + Z :=
  match s with
  | EmptyString => inl ErrSyntax
  | _ => parseUint_loop s 0
  end.

(** [strconv.ParseInt(s, 10, 64)]. *)
Definition ParseInt10 (s : string) : NumErr + Z :=
  match s with
  | EmptyString => inl ErrSyntax
  | String c s' =>
      let neg := Ascii.eqb c "-" in
      let body := if Ascii.eqb c "+" || neg then s' else s in
      match ParseUint10 body with
      | inl e => inl e
      | inr un =>
          if negb neg && (2 ^ 63 <=? un) then inl ErrRange
          else if neg && (2 ^ 63 <? un) then inl ErrRange
          else inr (if neg then - un else un)
      end
  end.

Definition digits : string := "0123456789abcdefghijklmnopqrstuvwxyz".

Definition digit_char (d : Z) : ascii :=
  match String.get (Z.to_nat d) digits with
  | Some c => c
  | None => "0"%char
  end.

(** The digit loop of [strconv.formatBits]: digits of [u] in [base], least
    significant first, put in front of [acc]. 64 rounds are enough for any
    [uint64] in any base. *)
Fixpoint formatBits (fuel : nat) (u base : Z) (acc : string) : string :=
  match fuel with
  | O => acc
  | S fuel' =>
      let acc' := String (digit_char (u mod base)) acc in
      if u / base =? 0 then acc' else formatBits fuel' (u / base) base acc'
  end.

(** [strconv.FormatInt(i, base)]: [None] is the panic
    "illegal AppendInt/FormatInt base" raised unless [2 <= base <= 36]. *)
Definition FormatInt (i : Z) (base : Z) : option string :=
  if (base <? 2) || (36 <? base) then None
  else Some (if i <? 0 then String "-" (formatBits 64 (- i) base "")
             else formatBits 64 i base "").

(** ** time *)

(** An instant is its number of nanoseconds since the Unix epoch, a
    [time.Duration] its number of nanoseconds. *)
Definition Nanosecond : Z := 1.
Definition Second : Z := 1000000000.
Definition Minute : Z := 60 * Second.

(** Seconds from the year 1, where [time.Time] counts from, to the Unix
    epoch. *)
Definition unixToInternal : Z := 62135596800.

(** [time.Unix(sec, 0)]: the seconds are kept, counted from the year 1, in
    an [int64], and the sum wraps around; a [sec] above
    9223371974719179007 gives an instant far in the past. *)
Definition time_Unix (sec : Z) : Z :=
  (wrap64 (sec + unixToInternal) - unixToInternal) * Second.
(** [t.Sub(u)], which saturates at the largest and smallest duration. *)
Definition Time_Sub (t u : Z) : Z := sat64 (t - u).
(** [t.Add(d)]. *)
Definition Time_Add (t d : Z) : Z := t + d.
(** [t.Unix()]: whole seconds since the epoch, rounded down. *)
Definition Time_Unix (t : Z) : Z := t / Second.

(** ** Claim values *)

#[local] Set Warnings "-register-all".

(** A decoded JSON value held in an [interface{}]: [nil], [bool],
    [float64], [int64], [json.Number], [string], [[]interface{}] and
    [map[string]interface{}]. *)
Inductive value : Type :=
| VNil
| VBool (b : bool)
| VFloat (f : spec_float)
| VInt64 (n : Z)
| VNumber (s : string)
| VString (s : string)
| VArray (l : list value)
| VObject (l : list (string * value)).

(** Magnitude of a finite float [m * 2^e], truncated to an integer. *)
Definition trunc_mag (m : positive) (e : Z) : Z :=
  if 0 <=? e then Z.shiftl (Z.pos m) e else Z.shiftr (Z.pos m) (- e).

(** The conversion [int64(f)] of a [float64]: the fraction is discarded;
    when the result does not fit, Go leaves the value to the implementation
    ([indef]). *)
Definition int64_of_float (indef : spec_float -> Z) (f : spec_float) : Z :=
  match f with
  | S754_zero _ => 0
  | S754_finite s m e =>
      let v := if s then - trunc_mag m e else trunc_mag m e in
      if in_int64 v then v else indef f
  | _ => indef f
  end.

(** The claims of a token, [jwtgo.MapClaims]. *)
Abbreviation MapClaims := (gmap string value).

(** ** Expiry policy *)

(** [expToInt64]: the type switch over the dynamic type of the claim. *)
Definition expToInt64 (indef : spec_float -> Z) (expI : value) : Error + Z :=
  match expI with
  | VFloat exp => inr (int64_of_float indef exp)
  | VInt64 exp => inr exp
  | VNumber exp =>
      match ParseInt10 exp with
      | inl e => inl (NumError e)
      | inr expAt => inr expAt
      end
  | _ => inl ErrInvalidDuration
  end.

(** [GetDefaultExpiration]: the result is a [time.Duration]. *)
Definition GetDefaultExpiration (dsecs : string) : Error + Z :=
  let defaultExpiryDuration := wrap64 (60 * Minute) in
  if negb (String.eqb dsecs "") then
    match ParseInt10 dsecs with
    | inl _ => inl ErrInvalidDuration
    | inr expirySecs =>
        if (expirySecs <? 900) || (43200 <? expirySecs) then inl ErrInvalidDuration
        else inr (wrap64 (expirySecs * Second))
    end
  else inr defaultExpiryDuration.

(** ** Key store *)

(** [xnet.URL], seen through its [String] method. *)
Record URL : Type := mkURL { URL_String : string }.

(** Modelled from the spec: the key entry type [JWKey] of the key-set
    document, declared in a file of the package that is not at hand. The
    key-set fetch protocol lists for each entry a key identifier, a key type,
    an algorithm and the algorithm-specific material. *)
Record JWKey : Type := mkJWKey {
  Kid : string;
  Kty : string;
  Alg : string;
  Material : list (string * string)
}.

(** The decoded key-set document, [JWKS]. *)
Record JWKS : Type := mkJWKS { Keys : list JWKey }.

(** [http.Response], as far as the refresh looks at it. *)
Record Response : Type := mkResponse {
  StatusCode : Z;
  Status : string;
  Body : string
}.

Definition StatusOK : Z := 200.

(** A token after [Parser.ParseUnverified]: its segments are decoded and its
    signing method is found from the header's [alg]. *)
Record Token : Type := mkToken {
  Raw : string;
  Method_Alg : string;
  Header : gmap string value;
  Claims : MapClaims;
  Valid : bool
}.

(** Calls a run performs, most recent first in the trace. *)
Inductive Event : Type :=
| EvRefresh                 (* PopulatePublicKey entered *)
| EvGet (url : string)      (* client.Get *)
| EvClose                   (* closeRespFn(resp.Body) *)
| EvParse                   (* ParseWithClaims entered *)
| EvLookup (kid : string)   (* p.args.publicKeys[kid] *)
| EvVerify.                 (* Method.Verify *)

(** What the code takes from outside this file: the environment (network,
    clock, process environment), the JSON and key decoders, and the parts of
    the token library that depend on cryptography and on the wire format. *)
Record Deps : Type := mkDeps {
  PublicKey : Type;
  (* environment *)
  http_Get : string -> nat -> Error + Response;
  clock : nat -> Z;
  LookupEnv : string -> option string;
  (* decoders *)
  json_Decode : string -> Error + JWKS;
  DecodePublicKey : JWKey -> Error + PublicKey;
  ParseURL : string -> Error + URL;
  float_indef : spec_float -> Z;
  (* token library *)
  ParseUnverified : string -> Error + Token;
  Method_Verify : Token -> option PublicKey -> bool;
  MapClaims_Valid : MapClaims -> Z -> Z
}.

(** ** The stateful program *)

Section Program.
Variable D : Deps.

(** The receiver's fields ([JWKSArgs.URL], [JWKSArgs.publicKeys],
    [JWKSArgs.closeRespFn]) and the run's bookkeeping. A nil map reads as
    the empty one; [closeRespFn] tells whether the field holds a function
    or is nil. The [transport] field only selects how requests travel and
    is part of the network oracle. *)
Record State : Type := mkState {
  args_URL : option URL;
  publicKeys : gmap string (PublicKey D);
  closeRespFn : bool;
  requests : nat;
  ticks : nat;
  trace : list Event
}.

Definition M (A : Type) : Type := State -> A * State.

Definition ret {A} (a : A) : M A := fun s => (a, s).
Definition bind {A B} (m : M A) (k : A -> M B) : M B :=
  fun s => let (a, s') := m s in k a s'.

Notation "'do' x <- c1 ; c2" := (bind c1 (fun x => c2))
  (at level 60, x name, c1 at next level, right associativity).
Notation "'do' '_' <- c1 ; c2" := (bind c1 (fun _ => c2))
  (at level 60, c1 at next level, right associativity).

Definition get : M State := fun s => (s, s).

Definition emit (e : Event) : M unit :=
  fun s => (tt, mkState (args_URL s) (publicKeys s) (closeRespFn s)
                        (requests s) (ticks s) (e :: trace s)).

Definition set_publicKeys (m : gmap string (PublicKey D)) : M unit :=
  fun s => (tt, mkState (args_URL s) m (closeRespFn s)
                        (requests s) (ticks s) (trace s)).

Definition set_URL (u : option URL) : M unit :=
  fun s => (tt, mkState u (publicKeys s) (closeRespFn s)
                        (requests s) (ticks s) (trace s)).

(** [time.Now()]: the next reading of the clock. *)
Definition time_Now : M Z :=
  fun s => (clock D (ticks s),
            mkState (args_URL s) (publicKeys s) (closeRespFn s)
                    (requests s) (S (ticks s)) (trace s)).

(** [client.Get(url)], through the transport of the receiver when it has
    one: the next answer of the network. *)
Definition client_Get (url : string) : M (Error + Response) :=
  fun s => (http_Get D url (requests s),
            mkState (args_URL s) (publicKeys s) (closeRespFn s)
                    (S (requests s)) (ticks s) (EvGet url :: trace s)).

(** The loop of [PopulatePublicKey] over [jwk.Keys]. *)
Fixpoint populate_keys (keys : list JWKey) : M (Outcome unit) :=
  match keys with
  | [] => ret (Ok tt)
  | key :: rest =>
      match DecodePublicKey D key with
      | inl err => ret (Err err)
      | inr publicKey =>
          do s <- get;
          do _ <- set_publicKeys (<[Kid key := publicKey]> (publicKeys s));
          populate_keys rest
      end
  end.

(** The key set in the spec's words: every listed entry is decoded,
    and the new mapping holds each key under its identifier (a later
    entry wins over an earlier one of the same identifier). *)
Fixpoint decoded_keys (keys : list JWKey)
    : option (list (string * PublicKey D)) :=
  match keys with
  | [] => Some []
  | key :: rest =>
      match DecodePublicKey D key with
      | inl _ => None
      | inr publicKey =>
          option_map (cons (Kid key, publicKey)) (decoded_keys rest)
      end
  end.

Definition add_keys (l : list (string * PublicKey D))
    (m : gmap string (PublicKey D)) : gmap string (PublicKey D) :=
  fold_left (fun acc kp => <[fst kp := snd kp]> acc) l m.

Definition new_key_set (l : list (string * PublicKey D))
    : gmap string (PublicKey D) :=
  add_keys l ∅.

(** The deferred call [r.closeRespFn(resp.Body)], run when
    [PopulatePublicKey] returns with [res]: calling a nil function
    panics. *)
Definition deferred_close (res : Outcome unit) : M (Outcome unit) :=
  do r <- get;
  if closeRespFn r then do _ <- emit EvClose; ret res
  else ret Panic.

(** [JWKSArgs.PopulatePublicKey]; [Ok tt] is a nil error. The call to
    [closeRespFn] is deferred once [Get] has succeeded. *)
Definition PopulatePublicKey : M (Outcome unit) :=
  do _ <- emit EvRefresh;
  do r <- get;
  match args_URL r with
  | None => ret (Ok tt)
  | Some u =>
      do got <- client_Get (URL_String u);
      match got with
      | inl err => ret (Err err)
      | inr resp =>
          do res <-
            (if negb (StatusCode resp =? StatusOK)
             then ret (Err (ErrorsNew (Status resp)))
             else match json_Decode D (Body resp) with
                  | inl err => ret (Err err)
                  | inr jwk =>
                      do _ <- set_publicKeys ∅;
                      populate_keys (Keys jwk)
                  end);
          deferred_close res
      end
  end.

(** ** Token library: [jwtgo.Parser.ParseWithClaims]

    The stages of the parser, in its order: decode the segments, check the
    method against [ValidMethods] when the parser has such a list, ask the
    key function for the key, validate the claims against the clock,
    verify the signature. The package-level [jwtgo.ParseWithClaims] is
    the method of a fresh parser, which has no [ValidMethods]. *)
Definition Parser_ParseWithClaims (ValidMethods : option (list string))
    (tokenString : string)
    (keyFunc : Token -> M (Error + option (PublicKey D)))
    : M (Error + Token) :=
  do _ <- emit EvParse;
  match ParseUnverified D tokenString with
  | inl err => ret (inl err)
  | inr token =>
      let signingMethodValid :=
        match ValidMethods with
        | None => true
        | Some l => existsb (String.eqb (Method_Alg token)) l
        end in
      if negb signingMethodValid
      then ret (inl (ValidationError ValidationErrorSignatureInvalid))
      else
        do k <- keyFunc token;
        match k with
        | inl (ValidationError f) => ret (inl (ValidationError f))
        | inl _ => ret (inl (ValidationError ValidationErrorUnverifiable))
        | inr key =>
            do now <- time_Now;
            let claimFlags := MapClaims_Valid D (Claims token) (Time_Unix now) in
            do _ <- emit EvVerify;
            let flags :=
              if Method_Verify D token key then claimFlags
              else Z.lor claimFlags ValidationErrorSignatureInvalid in
            if flags =? 0
            then ret (inr (mkToken (Raw token) (Method_Alg token)
                                   (Header token) (Claims token) true))
            else ret (inl (ValidationError flags))
        end
  end.

Definition jwtgo_ParseWithClaims := Parser_ParseWithClaims None.

(** ** Token validator *)

Definition ValidMethods : list string :=
  ["RS256"; "RS384"; "RS512"; "ES256"; "ES384"; "ES512"].

(** The closure [keyFuncCallback] of [Validate]. Its error message, which
    prints the header's value, is kept without the value. *)
Definition keyFuncCallback (jwtToken : Token)
    : M (Error + option (PublicKey D)) :=
  match Header jwtToken !! "kid" with
  | Some (VString kid) =>
      do _ <- emit (EvLookup kid);
      do s <- get;
      ret (inr (publicKeys s !! kid))
  | _ => ret (inl (ErrorsNew "Invalid kid value"))
  end.

(** The first parse of [Validate] and, when it fails, the refresh and
    the second parse. *)
Definition parse_with_retry (token : string) : M (Outcome Token) :=
  do first <- Parser_ParseWithClaims (Some ValidMethods) token keyFuncCallback;
  match first with
  | inr jwtToken => ret (Ok jwtToken)
  | inl _ =>
      do refreshed <- PopulatePublicKey;
      match refreshed with
      | Err err => ret (Err err)
      | Panic => ret Panic
      | Ok _ =>
          do second <- jwtgo_ParseWithClaims token keyFuncCallback;
          match second with
          | inr jwtToken => ret (Ok jwtToken)
          | inl err => ret (Err err)
          end
      end
  end.

(** The clamp of [Validate]: the duration is replaced by the time left to
    the token when that is shorter. The clock is read again for the
    replacement. *)
Definition clamp_duration (expAt defaultExpiryDuration : Z) : M Z :=
  do now1 <- time_Now;
  if Time_Sub (time_Unix expAt) now1 <? defaultExpiryDuration
  then do now2 <- time_Now; ret (Time_Sub (time_Unix expAt) now2)
  else ret defaultExpiryDuration.

(** The end of [Validate]: the expiry claim is set again when the token
    expires before the session would. *)
Definition restamp (claims : MapClaims) (expAt d : Z) : M (Outcome MapClaims) :=
  do now3 <- time_Now;
  let expiry := Time_Unix (Time_Add now3 d) in
  if expAt <? expiry
  then match FormatInt expAt 64 with
       | None => ret Panic
       | Some str => ret (Ok (<["exp" := VString str]> claims))
       end
  else ret (Ok claims).

(** [JWT.Validate]. *)
Definition Validate (token dsecs : string) : M (Outcome MapClaims) :=
  do parsed <- parse_with_retry token;
  match parsed with
  | Err err => ret (Err err)
  | Panic => ret Panic
  | Ok jwtToken =>
      let claims := Claims jwtToken in
      if negb (Valid jwtToken) then ret (Err ErrTokenExpired)
      else
        match expToInt64 (float_indef D) (default VNil (claims !! "exp")) with
        | inl err => ret (Err err)
        | inr expAt =>
            match GetDefaultExpiration dsecs with
            | inl err => ret (Err err)
            | inr defaultExpiryDuration =>
                do d <- clamp_duration expAt defaultExpiryDuration;
                restamp claims expAt d
            end
        end
  end.

(** ** Configuration *)

Definition EnvIAMJWKSURL : string := "MINIO_IAM_JWKS_URL".

(** Modelled from the spec: [env.Get], of a package that is not at hand.
    The configured value is overridden by the environment variable of
    that name when it is set. *)
Definition env_Get (key defaultValue : string) : string :=
  match LookupEnv D key with
  | Some v => v
  | None => defaultValue
  end.

(** [LookupConfig], run on its own copy [args] of the arguments, which
    is the state here; the copy it returns is the final state. *)
Definition LookupConfig : M (Outcome unit) :=
  do args <- get;
  let urlStr :=
    match args_URL args with
    | Some u => URL_String u
    | None => ""
    end in
  let jwksURL := env_Get EnvIAMJWKSURL urlStr in
  if String.eqb jwksURL "" then ret (Ok tt)
  else
    match ParseURL D jwksURL with
    | inl err => ret (Err err)
    | inr u =>
        do _ <- set_URL (Some u);
        PopulatePublicKey
    end.

(** How often an event of a kind occurs in a trace. *)
Definition is_refresh (e : Event) : bool :=
  match e with EvRefresh => true | _ => false end.
Definition is_get (e : Event) : bool :=
  match e with EvGet _ => true | _ => false end.
Definition is_parse (e : Event) : bool :=
  match e with EvParse => true | _ => false end.
Definition is_lookup (e : Event) : bool :=
  match e with EvLookup _ => true | _ => false end.

Fixpoint count (p : Event -> bool) (t : list Event) : nat :=
  match t with
  | [] => O
  | e :: t' => ((if p e then 1 else 0) + count p t')%nat
  end.

End Program.

Arguments mkState {D} _ _ _ _ _ _.
Arguments args_URL {D} _.
Arguments publicKeys {D} _.
Arguments closeRespFn {D} _.
Arguments requests {D} _.
Arguments ticks {D} _.
Arguments trace {D} _.

(** ** A small deployment to run the program on

    Keys are written as strings. The provider publishes three documents:
    two RSA keys, an RSA key followed by an entry of a key type that cannot
    be decoded, and a body that is no JSON. Tokens are named by their
    content: the header's algorithm, the key identifier ["k1"], and an
    expiry of 1100 s after the epoch. A signature verifies when the key
    is known, except for the HMAC methods, which take no public key; the
    claims are valid until the expiry is over. *)

Definition fx_DecodePublicKey (key : JWKey) : Error + string :=
  if String.eqb (Kty key) "RSA" then inr (Kid key ++ "-pub")%string
  else inl (DecodeError "Unknown JWK key type").

Definition fx_json_Decode (body : string) : Error + JWKS :=
  if String.eqb body "two-keys"
  then inr (mkJWKS [mkJWKey "k1" "RSA" "RS256" []; mkJWKey "k2" "RSA" "RS256" []])
  else if String.eqb body "second-entry-bad"
  then inr (mkJWKS [mkJWKey "k9" "RSA" "RS256" []; mkJWKey "k3" "OKP" "EdDSA" []])
  else inl (DecodeError "invalid character").

(** The float64 1100. *)
Definition f1100 : spec_float := S754_finite false 4837851162214400 (-42).

Definition fx_claims : MapClaims :=
  <["exp" := VFloat f1100]> (<["sub" := VString "alice"]> ∅).

Definition fx_token (alg : string) : Token :=
  mkToken alg alg (<["kid" := VString "k1"]> (<["alg" := VString alg]> ∅))
          fx_claims false.

Definition fx_ParseUnverified (tokenString : string) : Error + Token :=
  if String.eqb tokenString "" then inl (ValidationError ValidationErrorMalformed)
  else inr (fx_token tokenString).

Definition fx_MapClaims_Valid (claims : MapClaims) (now : Z) : Z :=
  match claims !! "exp" with
  | Some (VFloat f) => if now <=? int64_of_float (fun _ => minInt64) f then 0 else 16
  | _ => 0
  end.

(** The n-th element of a script, the last one from its end on. *)
Definition script {A} (l : list A) (d : A) (n : nat) : A := nth n l (List.last l d).

Definition fx_deps (responses : list (Error + Response)) (times : list Z) : Deps :=
  mkDeps string
         (fun _ => script responses (inl (TransportError "connection refused")))
         (script times 0)
         (fun _ => None)
         fx_json_Decode fx_DecodePublicKey (fun u => inr (mkURL u))
         (fun _ => minInt64)
         fx_ParseUnverified
         (fun token key =>
            if String.prefix "HS" (Method_Alg token) then false
            else match key with Some _ => true | None => false end)
         fx_MapClaims_Valid.

(** A state at the start of a run, with a [closeRespFn]. *)
Definition fx_state (D : Deps) (url : option URL) (keys : gmap string (PublicKey D))
    : State D :=
  mkState url keys true O O [].

(** The same with a nil [closeRespFn]. *)
Definition fx_state_nil (D : Deps) (url : option URL)
    (keys : gmap string (PublicKey D)) : State D :=
  mkState url keys false O O [].

Definition fx_url : URL := mkURL "https://idp.example/jwks".
Definition fx_old_keys : gmap string string := <["k0" := "k0-pub"]> ∅.

Definition resp_ok (body : string) : Error + Response :=
  inr (mkResponse 200 "200 OK" body).

Definition fx_known_keys : gmap string string := <["k1" := "k1-pub"]> ∅.

(** The provider serves two keys; it is 1000 s after the epoch. *)
Definition dep_two_keys : Deps :=
  fx_deps [resp_ok "two-keys"] [time_Unix 1000].

(** The provider serves a document whose second entry cannot be decoded. *)
Definition dep_bad_entry : Deps :=
  fx_deps [resp_ok "second-entry-bad"] [time_Unix 1000].

(** It is 2000 s after the epoch: the tokens are expired. *)
Definition dep_late : Deps :=
  fx_deps [resp_ok "two-keys"] [time_Unix 2000].

(** The clock moves on by a second before its fourth reading. *)
Definition dep_jump : Deps :=
  fx_deps [resp_ok "two-keys"]
          [time_Unix 1000; time_Unix 1000; time_Unix 1000; time_Unix 1001].

(** ** The rest of the file *)

Definition is_close (e : Event) : bool :=
  match e with EvClose => true | _ => false end.

(** [JWKSArgs.UnmarshalJSON]. [json_Unmarshal] stands for [json.Unmarshal]
    into the shadow type: it gives the [url] field (nil when the document
    has none); the other fields have no JSON name and keep their zero
    value. Both branches of the test on the URL assign the decoded value to
    the receiver and return nil. *)
Definition UnmarshalJSON (D : Deps)
    (json_Unmarshal : string -> Error + option URL) (data : string)
    : M D (option Error) :=
  match json_Unmarshal data with
  | inl err => ret D (Some err)
  | inr url =>
      let assign : M D unit :=
        fun s => (tt, mkState url ∅ false (requests s) (ticks s) (trace s)) in
      if match url with
         | None => true
         | Some u => String.eqb (URL_String u) ""
         end
      then bind D assign (fun _ => ret D None)
      else bind D assign (fun _ => ret D None)
  end.

(** A decoder for the deployment: the document is its URL. *)
Definition fx_json_Unmarshal (data : string) : Error + option URL :=
  if String.eqb data "" then inl (DecodeError "unexpected end of JSON input")
  else if String.eqb data "{}" then inr None
  else inr (Some (mkURL data)).

(** The deployment with a parser that decodes every token to [t]. *)
Definition fx_deps_token (t : Token) : Deps :=
  mkDeps string
         (fun _ => script [resp_ok "two-keys"]
                          (inl (TransportError "connection refused")))
         (script [time_Unix 1000] 0)
         (fun _ => None)
         fx_json_Decode fx_DecodePublicKey (fun u => inr (mkURL u))
         (fun _ => minInt64)
         (fun _ => inr t)
         (fun token key =>
            if String.prefix "HS" (Method_Alg token) then false
            else match key with Some _ => true | None => false end)
         fx_MapClaims_Valid.

(** A token whose header names no key, and one without an expiry claim. *)
Definition fx_token_no_kid : Token :=
  mkToken "" "RS256" (<["alg" := VString "RS256"]> ∅) fx_claims false.


(** The clock is set back between the two readings of the clamp: it reads
    100 s, then 201 s, then 100 s again. *)
Definition dep_backwards : Deps :=
  fx_deps [resp_ok "two-keys"]
          [time_Unix 100; time_Unix 201; time_Unix 100; time_Unix 100].

(** * Properties *)

(** ** strconv: printing and reading back *)

Lemma digit_val_digit_char (d : Z) :
  0 <= d < 10 -> digit_val (digit_char d) = Some d.
Proof.
  intros H.
  assert (d = 0 \/ d = 1 \/ d = 2 \/ d = 3 \/ d = 4 \/ d = 5 \/ d = 6 \/
          d = 7 \/ d = 8 \/ d = 9) as Hd by lia.
  destruct Hd as [-> | [-> | [-> | [-> | [-> | [-> | [-> | [-> | [-> | ->]]]]]]]]];
    vm_compute; reflexivity.
Qed.

Lemma digit_char_not_sign (d : Z) :
  0 <= d < 10 ->
  Ascii.eqb (digit_char d) "-" = false /\ Ascii.eqb (digit_char d) "+" = false.
Proof.
  intros H.
  assert (d = 0 \/ d = 1 \/ d = 2 \/ d = 3 \/ d = 4 \/ d = 5 \/ d = 6 \/
          d = 7 \/ d = 8 \/ d = 9) as Hd by lia.
  destruct Hd as [-> | [-> | [-> | [-> | [-> | [-> | [-> | [-> | [-> | ->]]]]]]]]];
    split; vm_compute; reflexivity.
Qed.

(** Reading the digits that [formatBits] puts in front of [acc] shifts the
    value read so far and adds the number printed. *)
Lemma parseUint_loop_formatBits (fuel : nat) :
  forall (u : Z) (acc : string),
    0 <= u < 10 ^ Z.of_nat fuel ->
    exists k, 0 <= k /\
      forall a, 0 <= a -> a * 10 ^ k + u <= maxUint64 ->
        parseUint_loop (formatBits fuel u 10 acc) a
        = parseUint_loop acc (a * 10 ^ k + u).
Proof.
  induction fuel as [| fuel IH]; intros u acc Hu.
  - exists 0. split; [lia |]. intros a _ _.
    change (10 ^ Z.of_nat 0) with 1 in Hu. change (10 ^ 0) with 1.
    replace (a * 1 + u) with a by lia. reflexivity.
  - rewrite Nat2Z.inj_succ, Z.pow_succ_r in Hu by lia.
    pose proof (Z.div_mod u 10 ltac:(lia)) as Hdm.
    pose proof (Z.mod_pos_bound u 10 ltac:(lia)) as Hr.
    assert (0 <= u / 10 < 10 ^ Z.of_nat fuel) as Hq.
    { split; [apply Z.div_pos; lia | apply Z.div_lt_upper_bound; lia]. }
    cbn [formatBits].
    destruct (u / 10 =? 0) eqn:Hz.
    + apply Z.eqb_eq in Hz. exists 1. split; [lia |].
      intros a Ha Hmax. cbn [parseUint_loop].
      rewrite digit_val_digit_char by lia.
      replace (a * 10 ^ 1 + u) with (a * 10 + u mod 10) in * by lia.
      destruct (maxUint64 <? a * 10 + u mod 10) eqn:Hc;
        [apply Z.ltb_lt in Hc; lia | reflexivity].
    + destruct (IH (u / 10) (String (digit_char (u mod 10)) acc) Hq)
        as (k & Hk & Hparse).
      exists (k + 1). split; [lia |].
      intros a Ha Hmax.
      rewrite Z.pow_add_r, Z.pow_1_r in Hmax by lia.
      assert (0 <= a * 10 ^ k) by (apply Z.mul_nonneg_nonneg; lia).
      rewrite Hparse by nia.
      cbn [parseUint_loop]. rewrite digit_val_digit_char by lia.
      replace (a * 10 ^ (k + 1) + u)
        with ((a * 10 ^ k + u / 10) * 10 + u mod 10)
        by (rewrite Z.pow_add_r, Z.pow_1_r by lia; lia).
      destruct (maxUint64 <? (a * 10 ^ k + u / 10) * 10 + u mod 10) eqn:Hc;
        [apply Z.ltb_lt in Hc; nia | reflexivity].
Qed.

(** What [formatBits] prints starts with a digit. *)
Lemma formatBits_head (fuel : nat) :
  forall (u : Z) (acc : string),
    0 <= u ->
    exists d rest, 0 <= d < 10 /\
      formatBits (S fuel) u 10 acc = String (digit_char d) rest.
Proof.
  induction fuel as [| fuel IH]; intros u acc Hu;
    pose proof (Z.mod_pos_bound u 10 ltac:(lia)) as Hr.
  - exists (u mod 10), acc. split; [lia |].
    cbn [formatBits]. destruct (u / 10 =? 0); reflexivity.
  - change (formatBits (S (S fuel)) u 10 acc)
      with (if u / 10 =? 0 then String (digit_char (u mod 10)) acc
            else formatBits (S fuel) (u / 10) 10
                            (String (digit_char (u mod 10)) acc)).
    destruct (u / 10 =? 0).
    + exists (u mod 10), acc. split; [lia | reflexivity].
    + apply IH. apply Z.div_pos; lia.
Qed.

Lemma ParseUint10_formatBits (u : Z) :
  0 <= u <= maxUint64 -> ParseUint10 (formatBits 64 u 10 "") = inr u.
Proof.
  intros Hu.
  destruct (formatBits_head 63 u "" ltac:(lia)) as (d & rest & Hd & Hhead).
  unfold ParseUint10. rewrite Hhead, <- Hhead.
  destruct (parseUint_loop_formatBits 64 u "") as (k & Hk & Hparse).
  { unfold maxUint64 in Hu. split; [lia |].
    change (Z.of_nat 64) with 64. lia. }
  rewrite Hparse by (simpl; lia).
  reflexivity.
Qed.

Lemma ParseInt10_minus (body : string) :
  ParseInt10 (String "-" body)
  = match ParseUint10 body with
    | inl e => inl e
    | inr un => if 2 ^ 63 <? un then inl ErrRange else inr (- un)
    end.
Proof. reflexivity. Qed.

(** [FormatInt] in base 10 does not panic. *)
Lemma FormatInt_10 (n : Z) :
  FormatInt n 10 = Some (if n <? 0 then String "-" (formatBits 64 (- n) 10 "")
                         else formatBits 64 n 10 "").
Proof. reflexivity. Qed.

Lemma ParseInt10_unsigned (d : Z) (rest : string) :
  0 <= d < 10 ->
  ParseInt10 (String (digit_char d) rest)
  = match ParseUint10 (String (digit_char d) rest) with
    | inl e => inl e
    | inr un => if 2 ^ 63 <=? un then inl ErrRange else inr un
    end.
Proof.
  intros Hd. destruct (digit_char_not_sign d Hd) as [Hm Hp].
  unfold ParseInt10. rewrite Hm, Hp. reflexivity.
Qed.

(** [ParseInt] reads back what [FormatInt] prints in base 10. *)
Lemma ParseInt10_FormatInt (n : Z) :
  in_int64 n = true ->
  exists str, FormatInt n 10 = Some str /\ str <> "" /\ ParseInt10 str = inr n.
Proof.
  unfold in_int64, minInt64, maxInt64. intros Hn.
  apply andb_prop in Hn as [Hlo Hhi].
  apply Z.leb_le in Hlo, Hhi.
  rewrite FormatInt_10.
  destruct (n <? 0) eqn:Hneg.
  - apply Z.ltb_lt in Hneg.
    eexists. split; [reflexivity |]. split; [discriminate |].
    rewrite ParseInt10_minus.
    rewrite ParseUint10_formatBits by (unfold maxUint64; lia).
    destruct (2 ^ 63 <? - n) eqn:Hc; [apply Z.ltb_lt in Hc; lia |].
    f_equal. lia.
  - apply Z.ltb_ge in Hneg.
    destruct (formatBits_head 63 n "" Hneg) as (d & rest & Hd & Hhead).
    remember (formatBits 64 n 10 "") as s eqn:Hs.
    exists s. split; [reflexivity |]. split; [rewrite Hhead; discriminate |].
    rewrite Hhead, ParseInt10_unsigned, <- Hhead by exact Hd.
    rewrite Hs, ParseUint10_formatBits by (unfold maxUint64; lia).
    destruct (2 ^ 63 <=? n) eqn:Hc; [apply Z.leb_le in Hc; lia |].
    reflexivity.
Qed.

(** ** Expiry policy *)

Lemma wrap64_id (z : Z) : in_int64 z = true -> wrap64 z = z.
Proof.
  unfold in_int64, minInt64, maxInt64, wrap64. intros H.
  apply andb_prop in H as [Hlo Hhi]. apply Z.leb_le in Hlo, Hhi.
  rewrite Z.mod_small by lia. lia.
Qed.

Lemma GetDefaultExpiration_parsed (dsecs : string) (n : Z) :
  dsecs <> "" -> ParseInt10 dsecs = inr n ->
  GetDefaultExpiration dsecs
  = if (900 <=? n) && (n <=? 43200) then inr (n * Second)
    else inl ErrInvalidDuration.
Proof.
  intros Hne Hp. unfold GetDefaultExpiration.
  destruct (String.eqb_spec dsecs "") as [-> | _]; [congruence |].
  cbn [negb]. rewrite Hp.
  destruct (n <? 900) eqn:Hlo; destruct (43200 <? n) eqn:Hhi;
    destruct (900 <=? n) eqn:Hlo'; destruct (n <=? 43200) eqn:Hhi';
    cbn [orb andb]; try reflexivity;
    try apply Z.ltb_lt in Hlo; try apply Z.ltb_ge in Hlo;
    try apply Z.ltb_lt in Hhi; try apply Z.ltb_ge in Hhi;
    try apply Z.leb_le in Hlo'; try apply Z.leb_gt in Hlo';
    try apply Z.leb_le in Hhi'; try apply Z.leb_gt in Hhi'; try lia.
  rewrite wrap64_id; [reflexivity |].
  unfold in_int64, minInt64, maxInt64, Second.
  apply andb_true_intro. split; apply Z.leb_le; lia.
Qed.

(** C5. The expiry policy: the empty string gives 3600 s; the decimal
    text of an integer gives that many seconds when the integer lies in
    [900, 43200] and [ErrInvalidDuration] otherwise; a text that does not
    parse gives [ErrInvalidDuration]; in particular "900" and "43200" are
    accepted, "899" and "43201" are not. *)
Theorem GetDefaultExpiration_policy :
  GetDefaultExpiration "" = inr (3600 * Second)
  /\ (forall n str, in_int64 n = true -> FormatInt n 10 = Some str ->
        GetDefaultExpiration str
        = if (900 <=? n) && (n <=? 43200) then inr (n * Second)
          else inl ErrInvalidDuration)
  /\ (forall dsecs n, dsecs <> "" -> ParseInt10 dsecs = inr n ->
        GetDefaultExpiration dsecs
        = if (900 <=? n) && (n <=? 43200) then inr (n * Second)
          else inl ErrInvalidDuration)
  /\ (forall dsecs e, dsecs <> "" -> ParseInt10 dsecs = inl e ->
        GetDefaultExpiration dsecs = inl ErrInvalidDuration)
  /\ GetDefaultExpiration "900" = inr (900 * Second)
  /\ GetDefaultExpiration "43200" = inr (43200 * Second)
  /\ GetDefaultExpiration "899" = inl ErrInvalidDuration
  /\ GetDefaultExpiration "43201" = inl ErrInvalidDuration.
Proof.
  split; [vm_compute; reflexivity |].
  split.
  { intros n str Hn Hf.
    destruct (ParseInt10_FormatInt n Hn) as (str' & Hf' & Hne & Hp).
    assert (str' = str) as -> by congruence.
    apply GetDefaultExpiration_parsed; assumption. }
  split; [apply GetDefaultExpiration_parsed |].
  split.
  { intros dsecs e Hne Hp. unfold GetDefaultExpiration.
    destruct (String.eqb_spec dsecs "") as [-> | _]; [congruence |].
    cbn [negb]. rewrite Hp. reflexivity. }
  repeat split; vm_compute; reflexivity.
Qed.

(** The policy at the requested duration "1800": half an hour. *)
Lemma GetDefaultExpiration_policy_witness :
  GetDefaultExpiration "1800" = inr (1800 * Second).
Proof.
  exact (proj1 (proj2 GetDefaultExpiration_policy) 1800 "1800" eq_refl eq_refl).
Defined.





(** ** The stateful program *)

Section Properties.
Variable D : Deps.
Implicit Types s : State D.

Ltac unfold_monad :=
  unfold bind, ret, get, emit, set_publicKeys, set_URL, time_Now, client_Get.

Lemma populate_keys_frame (keys : list JWKey) :
  forall s r s', populate_keys D keys s = (r, s') ->
    args_URL s' = args_URL s /\ closeRespFn s' = closeRespFn s
    /\ requests s' = requests s
    /\ ticks s' = ticks s /\ trace s' = trace s /\ r <> Panic.
Proof.
  induction keys as [| key rest IH]; intros s r s' H; cbn [populate_keys] in H.
  - injection H as <- <-. repeat split; auto; discriminate.
  - destruct (DecodePublicKey D key) as [err | pk].
    + injection H as <- <-. repeat split; auto; discriminate.
    + revert H. unfold_monad. intros H. apply IH in H. exact H.
Qed.

Lemma populate_keys_ok (keys : list JWKey) :
  forall s s', populate_keys D keys s = (Ok tt, s') ->
    exists l, decoded_keys D keys = Some l
              /\ publicKeys s' = add_keys D l (publicKeys s).
Proof.
  induction keys as [| key rest IH]; intros s s' H;
    cbn [populate_keys decoded_keys] in *.
  - injection H as <-. exists []. auto.
  - destruct (DecodePublicKey D key) as [err | pk]; [discriminate |].
    revert H. unfold_monad. intros H. apply IH in H as (l & -> & ->).
    eexists. split; reflexivity.
Qed.

(** A refresh is one call, at most one request, and no parse, lookup
    or clock reading. *)
Lemma PopulatePublicKey_frame s r s' :
  PopulatePublicKey D s = (r, s') ->
  args_URL s' = args_URL s /\ ticks s' = ticks s
  /\ closeRespFn s' = closeRespFn s
  /\ count is_refresh (trace s') = S (count is_refresh (trace s))
  /\ count is_parse (trace s') = count is_parse (trace s)
  /\ count is_lookup (trace s') = count is_lookup (trace s)
  /\ (count is_get (trace s) <= count is_get (trace s')
      <= S (count is_get (trace s)))%nat.
Proof.
  unfold PopulatePublicKey, deferred_close. unfold_monad. cbn.
  destruct (args_URL s) as [u |] eqn:Hu; cbn.
  2: { intros H. injection H as <- <-. cbn. repeat split; auto; lia. }
  destruct (http_Get D (URL_String u) (requests s)) as [err | resp]; cbn.
  { intros H. injection H as <- <-. cbn. repeat split; auto; lia. }
  destruct (negb (StatusCode resp =? StatusOK)); cbn.
  { destruct (closeRespFn s) eqn:Hc; intros H; injection H as <- <-; cbn;
      repeat split; auto; lia. }
  destruct (json_Decode D (Body resp)) as [err | jwk]; cbn.
  { destruct (closeRespFn s) eqn:Hc; intros H; injection H as <- <-; cbn;
      repeat split; auto; lia. }
  destruct (populate_keys D (Keys jwk) _) as [res s1] eqn:Hloop.
  apply populate_keys_frame in Hloop as (HU & HC & HR & HT & Htr & _).
  cbn in *.
  destruct (closeRespFn s1) eqn:Hc; intros H; injection H as <- <-; cbn;
    rewrite Htr; cbn; repeat split; auto; try lia; congruence.
Qed.

(** C1, as the code has it: a refresh that fails in the transport, on
    the status or on decoding the document leaves the cached mapping as
    it was, and so does a refresh without a URL; a refresh that succeeds
    leaves exactly the mapping built from every listed entry, whatever
    was cached before. (Once a response is there, the call returns
    only if the receiver has a [closeRespFn].) *)
Theorem PopulatePublicKey_keys s r s' :
  PopulatePublicKey D s = (r, s') ->
  match args_URL s with
  | None => r = Ok tt /\ publicKeys s' = publicKeys s
  | Some u =>
      match http_Get D (URL_String u) (requests s) with
      | inl err => r = Err err /\ publicKeys s' = publicKeys s
      | inr resp =>
          if negb (StatusCode resp =? StatusOK)
          then r = (if closeRespFn s then Err (ErrorsNew (Status resp))
                    else Panic)
               /\ publicKeys s' = publicKeys s
          else
            match json_Decode D (Body resp) with
            | inl err =>
                r = (if closeRespFn s then Err err else Panic)
                /\ publicKeys s' = publicKeys s
            | inr jwk =>
                r = Ok tt ->
                closeRespFn s = true
                /\ exists l, decoded_keys D (Keys jwk) = Some l
                             /\ publicKeys s' = new_key_set D l
            end
      end
  end.
Proof.
  unfold PopulatePublicKey, deferred_close. unfold_monad. cbn.
  destruct (args_URL s) as [u |] eqn:Hu; cbn.
  2: { intros H. injection H as <- <-. auto. }
  destruct (http_Get D (URL_String u) (requests s)) as [err | resp]; cbn.
  { intros H. injection H as <- <-. auto. }
  destruct (negb (StatusCode resp =? StatusOK)); cbn.
  { destruct (closeRespFn s); intros H; injection H as <- <-; auto. }
  destruct (json_Decode D (Body resp)) as [err | jwk]; cbn.
  { destruct (closeRespFn s); intros H; injection H as <- <-; auto. }
  destruct (populate_keys D (Keys jwk) _) as [res s1] eqn:Hloop.
  pose proof (populate_keys_frame _ _ _ _ Hloop) as (_ & HC & _).
  cbn in HC.
  destruct (closeRespFn s1) eqn:Hc; intros H; injection H as <- <-;
    [| discriminate].
  intros ->. split; [congruence |].
  apply populate_keys_ok in Hloop as (l & Hl & Hk). cbn in *.
  exists l. split; [exact Hl | exact Hk].
Qed.

(** ** The parser *)

(** A parse is one call of the parser: it leaves the receiver and the
    network alone, looks a key up at most once and reads the clock at
    most once. *)
Lemma Parser_frame vm token s r s' :
  Parser_ParseWithClaims D vm token (keyFuncCallback D) s = (r, s') ->
  args_URL s' = args_URL s /\ publicKeys s' = publicKeys s
  /\ closeRespFn s' = closeRespFn s /\ requests s' = requests s
  /\ count is_parse (trace s') = S (count is_parse (trace s))
  /\ count is_refresh (trace s') = count is_refresh (trace s)
  /\ count is_get (trace s') = count is_get (trace s)
  /\ (count is_lookup (trace s) <= count is_lookup (trace s')
      <= S (count is_lookup (trace s)))%nat.
Proof.
  unfold Parser_ParseWithClaims, keyFuncCallback. unfold_monad. cbn.
  intros H. repeat case_match; simplify_eq; cbn; repeat split; auto; lia.
Qed.

(** A parse that succeeds returns the decoded token, marked valid; its
    method passed the allow-list when the parser has one. *)
Lemma Parser_ok vm token s jwtToken s' :
  Parser_ParseWithClaims D vm token (keyFuncCallback D) s = (inr jwtToken, s') ->
  exists t0, ParseUnverified D token = inr t0
    /\ Claims jwtToken = Claims t0 /\ Method_Alg jwtToken = Method_Alg t0
    /\ Valid jwtToken = true
    /\ match vm with
       | Some l => existsb (String.eqb (Method_Alg t0)) l = true
       | None => True
       end.
Proof.
  unfold Parser_ParseWithClaims, keyFuncCallback. unfold_monad. cbn.
  intros H. destruct (ParseUnverified D token) as [err | t0]; [discriminate |].
  exists t0. split; [reflexivity |].
  destruct vm as [l |]; cbn in H.
  - destruct (existsb (String.eqb (Method_Alg t0)) l) eqn:Hl; cbn in H;
      [| discriminate].
    repeat case_match; simplify_eq; cbn; auto.
  - repeat case_match; simplify_eq; cbn; auto.
Qed.

(** With an allow-list, a token of another method is turned down before
    the key function is called. *)
Lemma Parser_disallowed l token t0 s :
  ParseUnverified D token = inr t0 ->
  existsb (String.eqb (Method_Alg t0)) l = false ->
  Parser_ParseWithClaims D (Some l) token (keyFuncCallback D) s
  = (inl (ValidationError ValidationErrorSignatureInvalid),
     mkState (args_URL s) (publicKeys s) (closeRespFn s) (requests s) (ticks s)
             (EvParse :: trace s)).
Proof.
  intros Hp Hl. unfold Parser_ParseWithClaims. unfold_monad. cbn.
  rewrite Hp, Hl. reflexivity.
Qed.

(** ** The validator *)

Lemma FormatInt_64 (i : Z) : FormatInt i 64 = None.
Proof. reflexivity. Qed.

Lemma clamp_duration_frame expAt dflt s d s' :
  clamp_duration D expAt dflt s = (d, s') ->
  args_URL s' = args_URL s /\ publicKeys s' = publicKeys s
  /\ closeRespFn s' = closeRespFn s
  /\ requests s' = requests s /\ trace s' = trace s.
Proof.
  unfold clamp_duration. unfold_monad. cbn.
  intros H. case_match; simplify_eq; cbn; auto.
Qed.

(** The value of the clamp, from the two readings of the clock. *)
Lemma clamp_duration_value expAt dflt s :
  clamp_duration D expAt dflt s
  = if Time_Sub (time_Unix expAt) (clock D (ticks s)) <? dflt
    then (Time_Sub (time_Unix expAt) (clock D (S (ticks s))),
          mkState (args_URL s) (publicKeys s) (closeRespFn s) (requests s) (S (S (ticks s)))
                  (trace s))
    else (dflt,
          mkState (args_URL s) (publicKeys s) (closeRespFn s) (requests s) (S (ticks s))
                  (trace s)).
Proof.
  unfold clamp_duration. unfold_monad. cbn.
  destruct (_ <? _); reflexivity.
Qed.

(** Setting the expiry claim again never succeeds: the call either
    leaves the claims as they are or panics in [FormatInt]. *)
Lemma restamp_value claims expAt d s :
  restamp D claims expAt d s
  = (if expAt <? Time_Unix (Time_Add (clock D (ticks s)) d)
     then Panic else Ok claims,
     mkState (args_URL s) (publicKeys s) (closeRespFn s) (requests s) (S (ticks s)) (trace s)).
Proof.
  unfold restamp. unfold_monad. rewrite FormatInt_64. cbn.
  destruct (_ <? _); reflexivity.
Qed.

(** The first parse, the refresh and the second parse, step by step. *)
Lemma parse_with_retry_run token s r s' :
  parse_with_retry D token s = (r, s') ->
  exists r1 s1,
    Parser_ParseWithClaims D (Some ValidMethods) token (keyFuncCallback D) s
    = (r1, s1)
    /\ match r1 with
       | inr jwtToken => r = Ok jwtToken /\ s' = s1
       | inl _ =>
           exists r2 s2, PopulatePublicKey D s1 = (r2, s2)
             /\ match r2 with
                | Err err => r = Err err /\ s' = s2
                | Panic => r = Panic /\ s' = s2
                | Ok _ =>
                    exists r3,
                      jwtgo_ParseWithClaims D token (keyFuncCallback D) s2
                      = (r3, s')
                      /\ r = match r3 with
                             | inr jwtToken => Ok jwtToken
                             | inl err => Err err
                             end
                end
       end.
Proof.
  unfold parse_with_retry, bind.
  destruct (Parser_ParseWithClaims D (Some ValidMethods) token _ s)
    as [r1 s1] eqn:H1.
  intros H. exists r1, s1. split; [reflexivity |].
  destruct r1 as [e1 | jwtToken].
  - destruct (PopulatePublicKey D s1) as [r2 s2] eqn:H2.
    exists r2, s2. split; [reflexivity |].
    destruct r2 as [u | err |].
    + destruct (jwtgo_ParseWithClaims D token _ s2) as [r3 s3] eqn:H3.
      exists r3. destruct r3; injection H as <- <-; auto.
    + injection H as <- <-. auto.
    + injection H as <- <-. auto.
  - injection H as <- <-. auto.
Qed.

(** A token that comes out of the parses is marked valid. *)
Lemma parse_with_retry_ok token s jwtToken s' :
  parse_with_retry D token s = (Ok jwtToken, s') ->
  exists t0, ParseUnverified D token = inr t0
    /\ Claims jwtToken = Claims t0 /\ Valid jwtToken = true.
Proof.
  intros H. apply parse_with_retry_run in H as (r1 & s1 & H1 & H).
  destruct r1 as [e1 | t1].
  - destruct H as (r2 & s2 & H2 & H). destruct r2 as [u | err |].
    + destruct H as (r3 & H3 & Hr). destruct r3 as [e3 | t3]; [discriminate |].
      injection Hr as ->.
      apply Parser_ok in H3 as (t0 & H0 & Hc & _ & Hv & _). eauto.
    + destruct H as [H _]. discriminate.
    + destruct H as [H _]. discriminate.
  - destruct H as [H _]. injection H as <-.
    apply Parser_ok in H1 as (t0 & H0 & Hc & _ & Hv & _). eauto.
Qed.

(** After the parses, [Validate] only reads the clock. *)
Lemma Validate_after_parse token dsecs s r s' :
  Validate D token dsecs s = (r, s') ->
  exists parsed s2,
    parse_with_retry D token s = (parsed, s2)
    /\ args_URL s' = args_URL s2 /\ publicKeys s' = publicKeys s2
    /\ requests s' = requests s2 /\ trace s' = trace s2
    /\ (forall err, parsed = Err err -> r = Err err /\ s' = s2)
    /\ (parsed = Panic -> r = Panic /\ s' = s2).
Proof.
  unfold Validate, bind.
  destruct (parse_with_retry D token s) as [parsed s2] eqn:Hp.
  intros H. exists parsed, s2. split; [reflexivity |].
  destruct parsed as [jwtToken | err |].
  2: { injection H as <- <-. repeat split; auto; congruence. }
  2: { injection H as <- <-. repeat split; auto; congruence. }
  assert (forall err, Ok jwtToken = Err err -> r = Err err /\ s' = s2)
    as Hno by discriminate.
  assert (Ok jwtToken = Panic -> r = Panic /\ s' = s2)
    as Hno' by discriminate.
  unfold ret in H.
  destruct (negb (Valid jwtToken)); [injection H as <- <-; auto 7 |].
  destruct (expToInt64 _ _) as [err | expAt]; [injection H as <- <-; auto 7 |].
  destruct (GetDefaultExpiration dsecs) as [err | dflt];
    [injection H as <- <-; auto 7 |].
  rewrite clamp_duration_value in H.
  destruct (_ <? dflt); rewrite restamp_value in H;
    injection H as <- <-; cbn; auto 7.
Qed.

(** What an accepted token went through. *)
Lemma Validate_Ok_inv token dsecs s claims' s' :
  Validate D token dsecs s = (Ok claims', s') ->
  exists jwtToken expAt dflt d s2 s3,
    parse_with_retry D token s = (Ok jwtToken, s2)
    /\ expToInt64 (float_indef D) (default VNil (Claims jwtToken !! "exp"))
       = inr expAt
    /\ GetDefaultExpiration dsecs = inr dflt
    /\ clamp_duration D expAt dflt s2 = (d, s3)
    /\ restamp D (Claims jwtToken) expAt d s3 = (Ok claims', s').
Proof.
  unfold Validate, bind.
  destruct (parse_with_retry D token s) as [parsed s2] eqn:Hp.
  destruct parsed as [jwtToken | err |]; [| discriminate | discriminate].
  unfold ret.
  destruct (negb (Valid jwtToken)); [discriminate |].
  destruct (expToInt64 _ _) as [err | expAt] eqn:He; [discriminate |].
  destruct (GetDefaultExpiration dsecs) as [err | dflt] eqn:Hd; [discriminate |].
  destruct (clamp_duration D expAt dflt s2) as [d s3] eqn:Hc.
  intros H. exists jwtToken, expAt, dflt, d, s2, s3. auto 6.
Qed.

(** The claims of an accepted token are returned as decoded, the expiry
    claim included: the branch that would set it again does not return. *)
Lemma Validate_Ok_claims token dsecs s claims' s' :
  Validate D token dsecs s = (Ok claims', s') ->
  exists t0, ParseUnverified D token = inr t0 /\ claims' = Claims t0.
Proof.
  intros H.
  apply Validate_Ok_inv in H
    as (jwtToken & expAt & dflt & d & s2 & s3 & Hp & _ & _ & _ & Hr).
  apply parse_with_retry_ok in Hp as (t0 & H0 & Hc & _).
  exists t0. split; [exact H0 |].
  rewrite restamp_value in Hr.
  destruct (_ <? _); [discriminate |].
  injection Hr as <- _. exact Hc.
Qed.

Lemma sat64_mono (a b : Z) : a <= b -> sat64 a <= sat64 b.
Proof.
  unfold sat64, minInt64, maxInt64. intros H.
  destruct (a <? - 2 ^ 63) eqn:Ha, (b <? - 2 ^ 63) eqn:Hb,
           (2 ^ 63 - 1 <? a) eqn:Ha', (2 ^ 63 - 1 <? b) eqn:Hb';
    try apply Z.ltb_lt in Ha; try apply Z.ltb_ge in Ha;
    try apply Z.ltb_lt in Hb; try apply Z.ltb_ge in Hb;
    try apply Z.ltb_lt in Ha'; try apply Z.ltb_ge in Ha';
    try apply Z.ltb_lt in Hb'; try apply Z.ltb_ge in Hb'; lia.
Qed.

(** C10. Without a URL a refresh returns nil at once: no request is
    made and the cached mapping is not touched. *)
Theorem PopulatePublicKey_no_URL s :
  args_URL s = None ->
  exists s', PopulatePublicKey D s = (Ok tt, s')
    /\ publicKeys s' = publicKeys s
    /\ requests s' = requests s
    /\ count is_get (trace s') = count is_get (trace s)
    /\ trace s' = EvRefresh :: trace s.
Proof.
  intros HU. unfold PopulatePublicKey. unfold_monad. cbn. rewrite HU.
  eexists. split; [reflexivity |]. cbn. auto.
Qed.

(** C4, as the code has it: for an accepted token, read on a clock that
    does not run backwards, the duration that the session is given exceeds
    neither the time left to the token, as the code computes it, nor the
    duration of the policy (the one asked for, or 3600 s when none is): it
    is the time left, read anew, whenever the time left is the shorter
    one, and the duration of the policy otherwise. *)
Theorem Validate_duration_clamped token dsecs s claims' s' :
  (forall n, clock D n <= clock D (S n)) ->
  Validate D token dsecs s = (Ok claims', s') ->
  exists jwtToken expAt dflt d s2 s3,
    parse_with_retry D token s = (Ok jwtToken, s2)
    /\ expToInt64 (float_indef D) (default VNil (Claims jwtToken !! "exp"))
       = inr expAt
    /\ GetDefaultExpiration dsecs = inr dflt
    /\ (dsecs = "" -> dflt = 3600 * Second)
    /\ clamp_duration D expAt dflt s2 = (d, s3)
    /\ restamp D (Claims jwtToken) expAt d s3 = (Ok claims', s')
    /\ let remaining := Time_Sub (time_Unix expAt) (clock D (ticks s2)) in
       let remaining' := Time_Sub (time_Unix expAt) (clock D (S (ticks s2))) in
       d <= dflt /\ d <= remaining
       /\ (remaining < dflt -> d = remaining')
       /\ (dflt <= remaining -> d = dflt).
Proof.
  intros Hclk H.
  apply Validate_Ok_inv in H
    as (jwtToken & expAt & dflt & d & s2 & s3 & Hp & He & Hd & Hc & Hr).
  exists jwtToken, expAt, dflt, d, s2, s3.
  repeat (split; [assumption |]).
  split.
  { intros ->. vm_compute in Hd. injection Hd as <-. reflexivity. }
  repeat (split; [assumption |]).
  rewrite clamp_duration_value in Hc. cbn zeta.
  assert (Time_Sub (time_Unix expAt) (clock D (S (ticks s2)))
          <= Time_Sub (time_Unix expAt) (clock D (ticks s2))) as Hle.
  { apply sat64_mono. specialize (Hclk (ticks s2)). lia. }
  destruct (_ <? dflt) eqn:Hlt; injection Hc as <- _.
  - apply Z.ltb_lt in Hlt. repeat split; lia.
  - apply Z.ltb_ge in Hlt. repeat split; lia.
Qed.


(** C9, as the code has it: [LookupConfig] refreshes the key set once,
    at configuration time, whenever the key-set URL in force (the
    environment's, else the configured one) is not empty and parses, and
    the outcome of that refresh is the outcome of the configuration;
    with an empty or malformed URL nothing is fetched. Afterwards a
    call of [Validate] whose first parse succeeds does not refresh. *)
Theorem LookupConfig_refreshes s r s' :
  LookupConfig D s = (r, s') ->
  let urlStr := match args_URL s with Some u => URL_String u | None => "" end in
  let jwksURL := env_Get D EnvIAMJWKSURL urlStr in
  (jwksURL = "" -> r = Ok tt /\ s' = s)
  /\ (forall err, jwksURL <> "" -> ParseURL D jwksURL = inl err ->
        r = Err err /\ s' = s)
  /\ (forall u, jwksURL <> "" -> ParseURL D jwksURL = inr u ->
        PopulatePublicKey D
          (mkState (Some u) (publicKeys s) (closeRespFn s) (requests s)
                   (ticks s) (trace s))
        = (r, s')
        /\ args_URL s' = Some u
        /\ count is_refresh (trace s') = S (count is_refresh (trace s)))
  /\ (forall token dsecs s0 r0 s0' jwtToken s1,
        Validate D token dsecs s0 = (r0, s0') ->
        Parser_ParseWithClaims D (Some ValidMethods) token (keyFuncCallback D) s0
        = (inr jwtToken, s1) ->
        count is_refresh (trace s0') = count is_refresh (trace s0)
        /\ count is_get (trace s0') = count is_get (trace s0)
        /\ publicKeys s0' = publicKeys s0).
Proof.
  unfold LookupConfig. unfold_monad. cbn zeta beta iota.
  set (urlStr := match args_URL s with Some u => URL_String u | None => "" end).
  set (jwksURL := env_Get D EnvIAMJWKSURL urlStr).
  intros H.
  split; [| split; [| split]].
  - intros E. rewrite E in H. cbn in H. injection H as <- <-. auto.
  - intros err Hne Hu.
    destruct (String.eqb_spec jwksURL "") as [E | _]; [contradiction |].
    rewrite Hu in H. injection H as <- <-. auto.
  - intros u Hne Hu.
    destruct (String.eqb_spec jwksURL "") as [E | _]; [contradiction |].
    rewrite Hu in H. split; [exact H |].
    apply PopulatePublicKey_frame in H as (HU & _ & _ & HR & _). cbn in *. auto.
  - clear H. intros token dsecs s0 r0 s0' jwtToken s1 HV H1.
    apply Validate_after_parse in HV
      as (parsed & sp & Hp & _ & HK & _ & Htr & _).
    apply parse_with_retry_run in Hp as (r1 & s1' & H1' & Hp).
    rewrite H1 in H1'. injection H1' as <- <-.
    destruct Hp as [_ ->].
    apply Parser_frame in H1 as (_ & HK1 & _ & _ & _ & R1 & G1 & _).
    rewrite Htr, HK. auto.
Qed.
End Properties.

(** ** The program on the deployment *)

(** A run whose result is known is the pair of that result and its final
    state. *)
Lemma run_result {A S : Type} (p : A * S) (a : A) : fst p = a -> p = (a, snd p).
Proof. intros <-. apply surjective_pairing. Qed.

(** A refresh without a URL, on a cache of one key. *)
Lemma PopulatePublicKey_no_URL_witness :
  args_URL (fx_state dep_two_keys None fx_old_keys) = None
  /\ exists s', PopulatePublicKey dep_two_keys (fx_state dep_two_keys None fx_old_keys)
                = (Ok tt, s')
       /\ publicKeys s' = publicKeys (fx_state dep_two_keys None fx_old_keys)
       /\ requests s' = requests (fx_state dep_two_keys None fx_old_keys)
       /\ count is_get (trace s')
          = count is_get (trace (fx_state dep_two_keys None fx_old_keys))
       /\ trace s' = EvRefresh :: trace (fx_state dep_two_keys None fx_old_keys).
Proof.
  split; [reflexivity |].
  apply (PopulatePublicKey_no_URL dep_two_keys). reflexivity.
Defined.

(** C1 as stated fails: the document's second entry cannot be decoded, the
    refresh returns that error, and the cached key is gone: the cache
    holds the first entry of the document instead. *)
Lemma PopulatePublicKey_error_counterexample :
  let s := fx_state dep_bad_entry (Some fx_url) fx_old_keys in
  let res := PopulatePublicKey dep_bad_entry s in
  fst res = Err (DecodeError "Unknown JWK key type")
  /\ publicKeys (snd res) <> publicKeys s
  /\ publicKeys s !! "k0" = Some "k0-pub"
  /\ publicKeys (snd res) !! "k0" = None
  /\ publicKeys (snd res) !! "k9" = Some "k9-pub".
Proof.
  cbv zeta.
  assert (publicKeys (snd (PopulatePublicKey dep_bad_entry
            (fx_state dep_bad_entry (Some fx_url) fx_old_keys))) !! "k0" = None)
    as Hgone by (vm_compute; reflexivity).
  split; [vm_compute; reflexivity |].
  split.
  { intros Heq. rewrite Heq in Hgone. vm_compute in Hgone. discriminate. }
  split; [vm_compute; reflexivity |].
  split; [exact Hgone | vm_compute; reflexivity].
Qed.

(** A refresh that succeeds: the cached key is replaced by the two keys
    of the document. *)
Lemma PopulatePublicKey_keys_witness :
  let s := fx_state dep_two_keys (Some fx_url) fx_old_keys in
  let res := PopulatePublicKey dep_two_keys s in
  PopulatePublicKey dep_two_keys s = (Ok tt, snd res)
  /\ publicKeys (snd res) !! "k0" = None
  /\ publicKeys (snd res) !! "k1" = Some "k1-pub"
  /\ publicKeys (snd res) !! "k2" = Some "k2-pub"
  /\ match args_URL s with
     | None => Ok tt = Ok tt /\ publicKeys (snd res) = publicKeys s
     | Some u =>
         match http_Get dep_two_keys (URL_String u) (requests s) with
         | inl err => Ok tt = Err err /\ publicKeys (snd res) = publicKeys s
         | inr resp =>
             if negb (StatusCode resp =? StatusOK)
             then Ok tt = (if closeRespFn s then Err (ErrorsNew (Status resp))
                           else Panic)
                  /\ publicKeys (snd res) = publicKeys s
             else
               match json_Decode dep_two_keys (Body resp) with
               | inl err =>
                   Ok tt = (if closeRespFn s then Err err else Panic)
                   /\ publicKeys (snd res) = publicKeys s
               | inr jwk =>
                   Ok tt = Ok tt ->
                   closeRespFn s = true
                   /\ exists l, decoded_keys dep_two_keys (Keys jwk) = Some l
                        /\ publicKeys (snd res) = new_key_set dep_two_keys l
               end
         end
     end.
Proof.
  intros s res.
  assert (PopulatePublicKey dep_two_keys s = (Ok tt, snd res)) as Hrun
    by (apply run_result; vm_compute; reflexivity).
  split; [exact Hrun |].
  do 3 (split; [vm_compute; reflexivity |]).
  exact (PopulatePublicKey_keys dep_two_keys s (Ok tt) (snd res) Hrun).
Defined.

(** C2: the branch that sets the expiry claim again does not return. The
    token expires at 1100 s; the clock reads 1000 s when the time left is
    taken (100 s, less than the default hour) and 1001 s when the
    session's expiry is computed: 1100 < 1101, the claim is to be set with
    the token's expiry, and [FormatInt] panics on the base 64. No claim
    set is returned. *)
Lemma Validate_restamp_panics :
  let s := fx_state dep_jump (Some fx_url) fx_known_keys in
  fst (Validate dep_jump "RS256" "" s) = Panic
  /\ Claims (fx_token "RS256") !! "exp" = Some (VFloat f1100)
  /\ expToInt64 (float_indef dep_jump) (VFloat f1100) = inr 1100
  /\ fst (clamp_duration dep_jump 1100 (3600 * Second)
            (@mkState dep_jump (Some fx_url) fx_known_keys true 0 1 []))
     = 100 * Second
  /\ Time_Unix (Time_Add (clock dep_jump 3) (100 * Second)) = 1101
  /\ FormatInt 1100 64 = None.
Proof.
  cbv zeta. repeat split; vm_compute; reflexivity.
Qed.

(** C3: the retry goes through the parser of the package, which has no
    allow-list. A PS256 token, of a method outside the list, is
    turned down by the first parse, then looked up and accepted by the
    second one. An HS256 token is rejected in the end, but only after
    the second parse has looked its key up. *)
Theorem Validate_retry_without_allow_list :
  let s := fx_state dep_two_keys (Some fx_url) fx_known_keys in
  existsb (String.eqb "PS256") ValidMethods = false
  /\ existsb (String.eqb "HS256") ValidMethods = false
  /\ fst (Validate dep_two_keys "PS256" "" s) = Ok fx_claims
  /\ count is_lookup (trace (snd (Validate dep_two_keys "PS256" "" s))) = 1%nat
  /\ fst (Validate dep_two_keys "HS256" "" s)
     = Err (ValidationError ValidationErrorSignatureInvalid)
  /\ count is_lookup (trace (snd (Validate dep_two_keys "HS256" "" s))) = 1%nat
  /\ trace (snd (Validate dep_two_keys "HS256" "" s))
     = [EvVerify; EvLookup "k1"; EvParse; EvClose;
        EvGet "https://idp.example/jwks"; EvRefresh; EvParse].
Proof.
  cbv zeta. repeat split; vm_compute; reflexivity.
Qed.

(** C7: the key is known and the signature verifies, but the token has
    expired. Both parses report the claims as invalid, and the error of
    the second parse is the result, not [ErrTokenExpired]. *)
Theorem Validate_expired_token_error :
  let s := fx_state dep_late (Some fx_url) fx_known_keys in
  Method_Verify dep_late (fx_token "RS256") (fx_known_keys !! "k1") = true
  /\ MapClaims_Valid dep_late (Claims (fx_token "RS256"))
       (Time_Unix (clock dep_late 0)) = 16
  /\ fst (Validate dep_late "RS256" "" s) = Err (ValidationError 16)
  /\ fst (Validate dep_late "RS256" "" s) <> Err ErrTokenExpired
  /\ count is_refresh (trace (snd (Validate dep_late "RS256" "" s))) = 1%nat.
Proof.
  cbv zeta.
  assert (fst (Validate dep_late "RS256" ""
                 (fx_state dep_late (Some fx_url) fx_known_keys))
          = Err (ValidationError 16)) as H by (vm_compute; reflexivity).
  repeat split; try (vm_compute; reflexivity).
  rewrite H. discriminate.
Qed.

(** C4 as stated fails when the clock is set back during the call. The
    token expires at 1100 s and 900 s are asked for. The clock reads 201 s
    for the comparison (899 s are left, less than 900 s) and 100 s for the
    replacement: the token is accepted with a duration of 1000 s, more
    than was asked for and more than was left at the comparison. *)
Lemma Validate_clock_set_back_counterexample :
  let s := fx_state dep_backwards (Some fx_url) fx_known_keys in
  let s2 := snd (parse_with_retry dep_backwards "RS256" s) in
  let d := fst (clamp_duration dep_backwards 1100 (900 * Second) s2) in
  fst (Validate dep_backwards "RS256" "900" s) = Ok fx_claims
  /\ expToInt64 (float_indef dep_backwards)
       (default VNil (fx_claims !! "exp")) = inr 1100
  /\ GetDefaultExpiration "900" = inr (900 * Second)
  /\ Time_Sub (time_Unix 1100) (clock dep_backwards (ticks s2)) = 899 * Second
  /\ d = 1000 * Second
  /\ ~ d <= 900 * Second
  /\ ~ d <= Time_Sub (time_Unix 1100) (clock dep_backwards (ticks s2)).
Proof.
  cbv zeta.
  assert (fst (clamp_duration dep_backwards 1100 (900 * Second)
                 (snd (parse_with_retry dep_backwards "RS256"
                         (fx_state dep_backwards (Some fx_url) fx_known_keys))))
          = 1000 * Second) as Hd by (vm_compute; reflexivity).
  assert (Time_Sub (time_Unix 1100)
            (clock dep_backwards
               (ticks (snd (parse_with_retry dep_backwards "RS256"
                              (fx_state dep_backwards (Some fx_url)
                                        fx_known_keys)))))
          = 899 * Second) as Hrem by (vm_compute; reflexivity).
  split; [vm_compute; reflexivity |].
  split; [vm_compute; reflexivity |].
  split; [vm_compute; reflexivity |].
  split; [exact Hrem |].
  split; [exact Hd |].
  rewrite Hd, Hrem. unfold Second. split; lia.
Qed.

(** An RS256 token of a known key, 100 s before its expiry, with no
    duration asked for: the session gets the 100 s that are left. *)
Lemma Validate_duration_clamped_witness :
  let s := fx_state dep_two_keys (Some fx_url) fx_known_keys in
  let s' := snd (Validate dep_two_keys "RS256" "" s) in
  (forall n, clock dep_two_keys n <= clock dep_two_keys (S n))
  /\ Validate dep_two_keys "RS256" "" s = (Ok fx_claims, s')
  /\ exists jwtToken expAt dflt d s2 s3,
      parse_with_retry dep_two_keys "RS256" s = (Ok jwtToken, s2)
      /\ expToInt64 (float_indef dep_two_keys)
           (default VNil (Claims jwtToken !! "exp")) = inr expAt
      /\ GetDefaultExpiration "" = inr dflt
      /\ ("" = "" -> dflt = 3600 * Second)
      /\ clamp_duration dep_two_keys expAt dflt s2 = (d, s3)
      /\ restamp dep_two_keys (Claims jwtToken) expAt d s3 = (Ok fx_claims, s')
      /\ let remaining :=
           Time_Sub (time_Unix expAt) (clock dep_two_keys (ticks s2)) in
         let remaining' :=
           Time_Sub (time_Unix expAt) (clock dep_two_keys (S (ticks s2))) in
         d <= dflt /\ d <= remaining
         /\ (remaining < dflt -> d = remaining')
         /\ (dflt <= remaining -> d = dflt).
Proof.
  intros s s'.
  assert (forall n, clock dep_two_keys n <= clock dep_two_keys (S n)) as Hclk.
  { intros [| [| n]]; vm_compute; discriminate. }
  assert (Validate dep_two_keys "RS256" "" s = (Ok fx_claims, s')) as Hrun
    by (apply run_result; vm_compute; reflexivity).
  split; [exact Hclk |].
  split; [exact Hrun |].
  exact (Validate_duration_clamped dep_two_keys "RS256" "" s fx_claims s'
           Hclk Hrun).
Defined.


(** C9 as stated fails: configuring a URL fetches the key set at once, and
    the key set is not empty when the configuration returns. With a nil
    [closeRespFn] the request is made all the same, before the deferred
    call panics. *)
Lemma LookupConfig_fetch_counterexample :
  let s := fx_state dep_two_keys (Some fx_url) ∅ in
  let res := LookupConfig dep_two_keys s in
  let res' := LookupConfig dep_two_keys (fx_state_nil dep_two_keys (Some fx_url) ∅) in
  fst res = Ok tt
  /\ trace (snd res) = [EvClose; EvGet "https://idp.example/jwks"; EvRefresh]
  /\ count is_get (trace (snd res)) = 1%nat
  /\ count is_parse (trace (snd res)) = 0%nat
  /\ publicKeys (snd res) !! "k1" = Some "k1-pub"
  /\ publicKeys (snd res) <> ∅
  /\ fst res' = Panic
  /\ trace (snd res') = [EvGet "https://idp.example/jwks"; EvRefresh].
Proof.
  cbv zeta.
  assert (publicKeys (snd (LookupConfig dep_two_keys
            (fx_state dep_two_keys (Some fx_url) ∅))) !! "k1" = Some "k1-pub")
    as Hk by (vm_compute; reflexivity).
  repeat split; try (vm_compute; reflexivity); try exact Hk.
  intros Heq. rewrite Heq in Hk. vm_compute in Hk. discriminate.
Qed.

(** The configuration of a URL is its refresh. *)
Lemma LookupConfig_refreshes_witness :
  let s := fx_state dep_two_keys (Some fx_url) ∅ in
  let res := LookupConfig dep_two_keys s in
  LookupConfig dep_two_keys s = (Ok tt, snd res)
  /\ env_Get dep_two_keys EnvIAMJWKSURL (URL_String fx_url) <> ""
  /\ ParseURL dep_two_keys (env_Get dep_two_keys EnvIAMJWKSURL (URL_String fx_url))
     = inr fx_url
  /\ PopulatePublicKey dep_two_keys
       (mkState (Some fx_url) (publicKeys s) (closeRespFn s) (requests s)
                (ticks s) (trace s))
     = (Ok tt, snd res)
  /\ args_URL (snd res) = Some fx_url
  /\ count is_refresh (trace (snd res)) = S (count is_refresh (trace s)).
Proof.
  intros s res.
  assert (LookupConfig dep_two_keys s = (Ok tt, snd res)) as Hrun
    by (apply run_result; vm_compute; reflexivity).
  assert (env_Get dep_two_keys EnvIAMJWKSURL (URL_String fx_url) <> "") as Hne
    by (vm_compute; discriminate).
  assert (ParseURL dep_two_keys
            (env_Get dep_two_keys EnvIAMJWKSURL (URL_String fx_url))
          = inr fx_url) as Hurl by (vm_compute; reflexivity).
  split; [exact Hrun |]. split; [exact Hne |]. split; [exact Hurl |].
  pose proof (LookupConfig_refreshes dep_two_keys s (Ok tt) (snd res) Hrun)
    as (_ & _ & H & _).
  exact (H fx_url Hne Hurl).
Defined.

(** * Further properties *)

(** ** Expiry policy *)

Lemma digit_val_range (c : ascii) (d : Z) : digit_val c = Some d -> 0 <= d <= 9.
Proof.
  unfold digit_val.
  destruct ((48 <=? Z.of_N (N_of_ascii c)) && (Z.of_N (N_of_ascii c) <=? 57))
    eqn:H; [| discriminate].
  apply andb_prop in H as [Hlo Hhi]. apply Z.leb_le in Hlo, Hhi.
  intros E. injection E as <-. lia.
Qed.

Lemma parseUint_loop_range (s : string) :
  forall n v, 0 <= n <= maxUint64 -> parseUint_loop s n = inr v ->
    n <= v <= maxUint64.
Proof.
  induction s as [| c s IH]; intros n v Hn H; cbn [parseUint_loop] in H.
  - injection H as <-. lia.
  - destruct (digit_val c) as [d |] eqn:Hd; [| discriminate].
    apply digit_val_range in Hd.
    destruct (maxUint64 <? n * 10 + d) eqn:Hc; [discriminate |].
    apply Z.ltb_ge in Hc. apply IH in H; lia.
Qed.

(** What [ParseInt] returns fits an [int64]. *)
Lemma ParseInt10_range (s : string) (n : Z) :
  ParseInt10 s = inr n -> in_int64 n = true.
Proof.
  unfold ParseInt10. destruct s as [| c s]; [discriminate |].
  set (body := if Ascii.eqb c "+" || Ascii.eqb c "-" then s else String c s).
  destruct (ParseUint10 body) as [e | un] eqn:Hu; [discriminate |].
  assert (0 <= un <= maxUint64) as Hun.
  { unfold ParseUint10 in Hu. destruct body; [discriminate |].
    apply parseUint_loop_range in Hu; unfold maxUint64 in *; lia. }
  unfold in_int64, minInt64, maxInt64.
  destruct (Ascii.eqb c "-"); cbn [negb andb].
  - destruct (2 ^ 63 <? un) eqn:Hc; [discriminate |].
    apply Z.ltb_ge in Hc. intros E. injection E as <-.
    apply andb_true_intro. split; apply Z.leb_le; lia.
  - destruct (2 ^ 63 <=? un) eqn:Hc; [discriminate |].
    apply Z.leb_gt in Hc. intros E. injection E as <-.
    apply andb_true_intro. split; apply Z.leb_le; lia.
Qed.


(** X1. Whatever the request, the policy answers with a whole number of
    seconds between 900 and 43200 or with [ErrInvalidDuration]: no other
    duration and no other error comes out of it. *)
Theorem GetDefaultExpiration_bounds (dsecs : string) :
  (exists n, 900 <= n <= 43200 /\ GetDefaultExpiration dsecs = inr (n * Second))
  \/ GetDefaultExpiration dsecs = inl ErrInvalidDuration.
Proof.
  unfold GetDefaultExpiration.
  destruct (String.eqb dsecs ""); cbn [negb].
  - left. exists 3600. split; [lia | vm_compute; reflexivity].
  - destruct (ParseInt10 dsecs) as [e | n]; [right; reflexivity |].
    destruct (n <? 900) eqn:Hlo; [right; reflexivity |].
    destruct (43200 <? n) eqn:Hhi; [right; reflexivity |].
    apply Z.ltb_ge in Hlo, Hhi. cbn [orb].
    left. exists n. split; [lia |].
    rewrite wrap64_id; [reflexivity |].
    unfold in_int64, minInt64, maxInt64, Second.
    apply andb_true_intro. split; apply Z.leb_le; lia.
Qed.

(** X2. The expiry that the coercion yields fits an [int64], whatever
    the shape of the claim: for a number in text form the parser refuses
    what is out of range. *)
Theorem expToInt64_in_int64 (indef : spec_float -> Z) (expI : value) (n : Z) :
  (forall f, in_int64 (indef f) = true) ->
  (forall k, expI = VInt64 k -> in_int64 k = true) ->
  expToInt64 indef expI = inr n ->
  in_int64 n = true.
Proof.
  intros Hindef Hint. destruct expI; cbn [expToInt64]; try discriminate.
  - intros E. injection E as <-. unfold int64_of_float.
    destruct f as [s | s | | s m e]; try apply Hindef; [reflexivity |].
    destruct (in_int64 (if s then - trunc_mag m e else trunc_mag m e)) eqn:Hv;
      [exact Hv | apply Hindef].
  - intros E. injection E as <-. apply Hint. reflexivity.
  - destruct (ParseInt10 s) as [e | k] eqn:Hp; [discriminate |].
    intros E. injection E as <-. exact (ParseInt10_range _ _ Hp).
Qed.

(** The number "-9223372036854775808", the least [int64]. *)
Lemma expToInt64_in_int64_witness :
  expToInt64 (fun _ => minInt64) (VNumber "-9223372036854775808")
  = inr minInt64
  /\ in_int64 minInt64 = true.
Proof.
  assert (expToInt64 (fun _ => minInt64) (VNumber "-9223372036854775808")
          = inr minInt64) as H by (vm_compute; reflexivity).
  split; [exact H |].
  apply (expToInt64_in_int64 (fun _ => minInt64)
           (VNumber "-9223372036854775808") minInt64);
    [reflexivity | discriminate | exact H].
Defined.

(** ** Key store *)

Section MoreProperties.
Variable D : Deps.
Implicit Types s : State D.

Ltac unfold_run :=
  unfold bind, ret, get, emit, set_publicKeys, set_URL, time_Now, client_Get.

Lemma State_eta s :
  mkState (args_URL s) (publicKeys s) (closeRespFn s) (requests s) (ticks s)
          (trace s) = s.
Proof. destruct s; reflexivity. Qed.

(** The loop over entries that all decode, run forward. *)
Lemma populate_keys_decoded (keys : list JWKey) :
  forall l s, decoded_keys D keys = Some l ->
    populate_keys D keys s
    = (Ok tt, mkState (args_URL s) (add_keys D l (publicKeys s)) (closeRespFn s)
                      (requests s) (ticks s) (trace s)).
Proof.
  induction keys as [| key rest IH]; intros l s H;
    cbn [populate_keys decoded_keys] in *.
  - injection H as <-. unfold ret. cbn. rewrite State_eta. reflexivity.
  - destruct (DecodePublicKey D key) as [err | pk]; [discriminate |].
    destruct (decoded_keys D rest) as [l' |] eqn:Hrest; [| discriminate].
    injection H as <-. unfold_run. cbn. rewrite (IH l' _ eq_refl). reflexivity.
Qed.


(** What a refresh with a URL has done when it returns nil. *)
Lemma PopulatePublicKey_Ok_inv s s' u :
  PopulatePublicKey D s = (Ok tt, s') -> args_URL s = Some u ->
  exists resp jwk l,
    http_Get D (URL_String u) (requests s) = inr resp
    /\ StatusCode resp = StatusOK
    /\ json_Decode D (Body resp) = inr jwk
    /\ decoded_keys D (Keys jwk) = Some l
    /\ closeRespFn s = true
    /\ s' = mkState (Some u) (new_key_set D l) true (S (requests s)) (ticks s)
                    (EvClose :: EvGet (URL_String u) :: EvRefresh :: trace s).
Proof.
  intros H HU. revert H.
  unfold PopulatePublicKey, deferred_close. unfold_run. cbn.
  rewrite HU. cbn.
  destruct (http_Get D (URL_String u) (requests s)) as [err | resp] eqn:HG; cbn;
    [discriminate |].
  destruct (StatusCode resp =? StatusOK) eqn:HS; cbn.
  2: { destruct (closeRespFn s); discriminate. }
  destruct (json_Decode D (Body resp)) as [err | jwk] eqn:HJ; cbn.
  { destruct (closeRespFn s); discriminate. }
  destruct (populate_keys D (Keys jwk) _) as [res s1] eqn:Hloop.
  pose proof (populate_keys_frame _ _ _ _ _ Hloop) as (_ & HC & _).
  cbn in HC.
  destruct (closeRespFn s1) eqn:Hc; [| discriminate].
  intros H. injection H as -> <-.
  destruct (populate_keys_ok _ _ _ _ Hloop) as (l & Hl & _).
  rewrite (populate_keys_decoded _ l _ Hl) in Hloop. injection Hloop as <-.
  exists resp, jwk, l. apply Z.eqb_eq in HS. cbn in *.
  repeat split; auto. rewrite Hc. reflexivity.
Qed.

(** X3. The response body is released exactly once by every refresh that
    got a response and returns, whatever it returns, and by no other; a
    refresh panics exactly when it got a response and the receiver has no
    [closeRespFn] to release it with. *)
Theorem PopulatePublicKey_closes_body s r s' :
  PopulatePublicKey D s = (r, s') ->
  let fetched :=
    match args_URL s with
    | Some u =>
        match http_Get D (URL_String u) (requests s) with
        | inr _ => true
        | inl _ => false
        end
    | None => false
    end in
  (r = Panic <-> fetched = true /\ closeRespFn s = false)
  /\ (r <> Panic ->
      count is_close (trace s')
      = ((if fetched then 1 else 0) + count is_close (trace s))%nat).
Proof.
  unfold PopulatePublicKey, deferred_close. unfold_run. cbn.
  destruct (args_URL s) as [u |] eqn:Hu; cbn.
  2: { intros H. injection H as <- <-. cbn.
       split; [split; [discriminate | intros [? _]; discriminate] | auto]. }
  destruct (http_Get D (URL_String u) (requests s)) as [err | resp]; cbn.
  { intros H. injection H as <- <-. cbn.
    split; [split; [discriminate | intros [? _]; discriminate] | auto]. }
  destruct (negb (StatusCode resp =? StatusOK)); cbn.
  { destruct (closeRespFn s); intros H; injection H as <- <-; cbn.
    - split; [split; [discriminate | intros [_ ?]; discriminate] | auto].
    - split; [split; auto | intros Hn; contradiction]. }
  destruct (json_Decode D (Body resp)) as [err | jwk]; cbn.
  { destruct (closeRespFn s); intros H; injection H as <- <-; cbn.
    - split; [split; [discriminate | intros [_ ?]; discriminate] | auto].
    - split; [split; auto | intros Hn; contradiction]. }
  destruct (populate_keys D (Keys jwk) _) as [res s1] eqn:Hloop.
  apply populate_keys_frame in Hloop as (_ & HC & _ & _ & Htr & Hres).
  cbn in HC, Htr. rewrite HC.
  destruct (closeRespFn s); intros H; injection H as <- <-; cbn.
  - split; [split; [contradiction | intros [_ ?]; discriminate] |].
    intros _. rewrite Htr. reflexivity.
  - split; [split; auto | intros Hn; contradiction].
Qed.

Lemma add_keys_app (l1 l2 : list (string * PublicKey D)) m :
  add_keys D (l1 ++ l2)%list m = add_keys D l2 (add_keys D l1 m).
Proof. unfold add_keys. apply fold_left_app. Qed.

Lemma add_keys_notin (l : list (string * PublicKey D)) (kid : string) :
  forall m, (forall kp, In kp l -> fst kp <> kid) ->
    add_keys D l m !! kid = m !! kid.
Proof.
  induction l as [| [k v] l IH]; intros m H; [reflexivity |].
  change (add_keys D ((k, v) :: l) m) with (add_keys D l (<[k := v]> m)).
  rewrite IH by (intros kp Hin; apply H; right; exact Hin).
  apply lookup_insert_ne. exact (H (k, v) (or_introl eq_refl)).
Qed.

Lemma decoded_keys_fst (keys : list JWKey) :
  forall l, decoded_keys D keys = Some l -> map fst l = map Kid keys.
Proof.
  induction keys as [| key rest IH]; intros l H; cbn [decoded_keys] in H.
  - injection H as <-. reflexivity.
  - destruct (DecodePublicKey D key) as [err | pk]; [discriminate |].
    destruct (decoded_keys D rest) as [l' |] eqn:Hrest; [| discriminate].
    injection H as <-. cbn. f_equal. apply IH. reflexivity.
Qed.

Lemma decoded_keys_app (pre : list JWKey) (key : JWKey) (post : list JWKey) :
  forall l, decoded_keys D (pre ++ key :: post)%list = Some l ->
    exists l1 pk l2,
      l = (l1 ++ (Kid key, pk) :: l2)%list
      /\ DecodePublicKey D key = inr pk
      /\ decoded_keys D post = Some l2.
Proof.
  induction pre as [| k0 pre IH]; intros l H; cbn [app decoded_keys] in H.
  - destruct (DecodePublicKey D key) as [err | pk]; [discriminate |].
    destruct (decoded_keys D post) as [l2 |]; [| discriminate].
    injection H as <-. exists [], pk, l2. auto.
  - destruct (DecodePublicKey D k0) as [err | pk0]; [discriminate |].
    destruct (decoded_keys D (pre ++ key :: post)%list) as [l' |] eqn:Hrest;
      [| discriminate].
    injection H as <-.
    destruct (IH l' eq_refl) as (l1 & pk & l2 & -> & Hk & Hpost).
    exists ((Kid k0, pk0) :: l1), pk, l2. auto.
Qed.

Lemma In_map_fst_Kid (keys : list JWKey) (l : list (string * PublicKey D)) kid :
  map fst l = map Kid keys ->
  (forall key, In key keys -> Kid key <> kid) ->
  forall kp, In kp l -> fst kp <> kid.
Proof.
  intros Hmap Hkeys kp Hin Heq.
  apply (in_map fst) in Hin. rewrite Hmap in Hin.
  apply in_map_iff in Hin as (key & Hk & Hin').
  apply (Hkeys key Hin'). congruence.
Qed.

(** X4. A refresh that returns nil replaces the key set: an identifier
    that the fetched document does not list is unknown afterwards, also
    when a key was cached under it before. *)
Theorem PopulatePublicKey_drops_unlisted s s' u resp jwk kid :
  PopulatePublicKey D s = (Ok tt, s') ->
  args_URL s = Some u ->
  http_Get D (URL_String u) (requests s) = inr resp ->
  json_Decode D (Body resp) = inr jwk ->
  (forall key, In key (Keys jwk) -> Kid key <> kid) ->
  publicKeys s' !! kid = None.
Proof.
  intros H HU HG HJ Hkid.
  destruct (PopulatePublicKey_Ok_inv _ _ _ H HU)
    as (resp' & jwk' & l & HG' & _ & HJ' & HL & _ & ->).
  rewrite HG in HG'. injection HG' as <-.
  rewrite HJ in HJ'. injection HJ' as <-.
  cbn. unfold new_key_set.
  rewrite add_keys_notin; [apply lookup_empty |].
  apply (In_map_fst_Kid (Keys jwk)); [apply decoded_keys_fst; exact HL | exact Hkid].
Qed.

(** X5. After a refresh that returns nil, an identifier that the document
    lists is known under the key of its last entry of that identifier. *)
Theorem PopulatePublicKey_last_entry_wins s s' u resp jwk pre key post :
  PopulatePublicKey D s = (Ok tt, s') ->
  args_URL s = Some u ->
  http_Get D (URL_String u) (requests s) = inr resp ->
  json_Decode D (Body resp) = inr jwk ->
  Keys jwk = (pre ++ key :: post)%list ->
  (forall key', In key' post -> Kid key' <> Kid key) ->
  exists publicKey,
    DecodePublicKey D key = inr publicKey
    /\ publicKeys s' !! Kid key = Some publicKey.
Proof.
  intros H HU HG HJ Hsplit Hlast.
  destruct (PopulatePublicKey_Ok_inv _ _ _ H HU)
    as (resp' & jwk' & l & HG' & _ & HJ' & HL & _ & ->).
  rewrite HG in HG'. injection HG' as <-.
  rewrite HJ in HJ'. injection HJ' as <-.
  rewrite Hsplit in HL.
  destruct (decoded_keys_app _ _ _ _ HL) as (l1 & pk & l2 & -> & Hk & Hpost).
  exists pk. split; [exact Hk |].
  cbn. unfold new_key_set.
  rewrite add_keys_app.
  change (add_keys D ((Kid key, pk) :: l2) (add_keys D l1 ∅))
    with (add_keys D l2 (<[Kid key := pk]> (add_keys D l1 ∅))).
  rewrite add_keys_notin; [apply lookup_insert_eq |].
  apply (In_map_fst_Kid post); [apply decoded_keys_fst; exact Hpost | exact Hlast].
Qed.

(** ** The parser, run forward *)

Lemma Parser_malformed vm token e s :
  ParseUnverified D token = inl e ->
  Parser_ParseWithClaims D vm token (keyFuncCallback D) s
  = (inl e, mkState (args_URL s) (publicKeys s) (closeRespFn s) (requests s)
                    (ticks s) (EvParse :: trace s)).
Proof.
  intros H. unfold Parser_ParseWithClaims. unfold_run. cbn. rewrite H.
  reflexivity.
Qed.

Lemma Parser_bad_kid vm token t0 s :
  ParseUnverified D token = inr t0 ->
  (forall kid, Header t0 !! "kid" <> Some (VString kid)) ->
  exists flags,
    Parser_ParseWithClaims D vm token (keyFuncCallback D) s
    = (inl (ValidationError flags),
       mkState (args_URL s) (publicKeys s) (closeRespFn s) (requests s)
               (ticks s) (EvParse :: trace s))
    /\ (vm = None -> flags = ValidationErrorUnverifiable).
Proof.
  intros H Hkid. unfold Parser_ParseWithClaims, keyFuncCallback. unfold_run.
  cbn. rewrite H.
  assert (match Header t0 !! "kid" with
          | Some (VString _) => False
          | _ => True
          end) as Hk.
  { destruct (Header t0 !! "kid") as [[] |] eqn:E; try exact Logic.I.
    exact (Hkid _ eq_refl). }
  destruct vm as [l |]; cbn.
  - destruct (existsb (String.eqb (Method_Alg t0)) l); cbn.
    + destruct (Header t0 !! "kid") as [[] |]; try contradiction;
        eexists; (split; [reflexivity | discriminate]).
    + eexists. split; [reflexivity | discriminate].
  - destruct (Header t0 !! "kid") as [[] |]; try contradiction;
      eexists; (split; [reflexivity | reflexivity]).
Qed.

Lemma Parser_run vm token t0 kid s :
  ParseUnverified D token = inr t0 ->
  match vm with
  | Some l => existsb (String.eqb (Method_Alg t0)) l = true
  | None => True
  end ->
  Header t0 !! "kid" = Some (VString kid) ->
  Parser_ParseWithClaims D vm token (keyFuncCallback D) s
  = (let claimFlags :=
       MapClaims_Valid D (Claims t0) (Time_Unix (clock D (ticks s))) in
     let flags :=
       if Method_Verify D t0 (publicKeys s !! kid) then claimFlags
       else Z.lor claimFlags ValidationErrorSignatureInvalid in
     if flags =? 0
     then inr (mkToken (Raw t0) (Method_Alg t0) (Header t0) (Claims t0) true)
     else inl (ValidationError flags),
     mkState (args_URL s) (publicKeys s) (closeRespFn s) (requests s)
             (S (ticks s)) (EvVerify :: EvLookup kid :: EvParse :: trace s)).
Proof.
  intros H Hvm Hkid. unfold Parser_ParseWithClaims, keyFuncCallback.
  unfold_run. cbn. rewrite H.
  assert (match vm with
          | Some l => existsb (String.eqb (Method_Alg t0)) l
          | None => true
          end = true) as ->
    by (destruct vm; [exact Hvm | reflexivity]).
  cbn. rewrite Hkid. cbn.
  destruct (_ =? 0); reflexivity.
Qed.

Lemma lor_signature_invalid (f : Z) :
  Z.lor f ValidationErrorSignatureInvalid <> 0.
Proof.
  intros H. apply Z.lor_eq_0_iff in H as [_ H]. discriminate.
Qed.

(** A parse reads the clock at most once. *)
Lemma Parser_ticks vm token s r s' :
  Parser_ParseWithClaims D vm token (keyFuncCallback D) s = (r, s') ->
  (ticks s <= ticks s' <= S (ticks s))%nat.
Proof.
  unfold Parser_ParseWithClaims, keyFuncCallback. unfold_run. cbn.
  intros H. repeat case_match; simplify_eq; cbn; lia.
Qed.

(** What a parse that succeeds has checked. *)
Lemma Parser_Ok_inv vm token jwtToken s s' :
  Parser_ParseWithClaims D vm token (keyFuncCallback D) s = (inr jwtToken, s') ->
  exists t0 kid,
    ParseUnverified D token = inr t0
    /\ Header t0 !! "kid" = Some (VString kid)
    /\ Method_Verify D t0 (publicKeys s !! kid) = true
    /\ MapClaims_Valid D (Claims t0) (Time_Unix (clock D (ticks s))) = 0
    /\ Claims jwtToken = Claims t0
    /\ publicKeys s' = publicKeys s
    /\ ticks s' = S (ticks s).
Proof.
  intros H.
  destruct (ParseUnverified D token) as [e | t0] eqn:Hp.
  { rewrite (Parser_malformed _ _ _ _ Hp) in H. discriminate. }
  destruct (Parser_ok _ _ _ _ _ _ H) as (t0' & Hp' & _ & _ & _ & Hvm).
  rewrite Hp in Hp'. injection Hp' as <-.
  assert ((exists kid, Header t0 !! "kid" = Some (VString kid))
          \/ (forall kid, Header t0 !! "kid" <> Some (VString kid))) as Hcase.
  { destruct (Header t0 !! "kid") as [[] |];
      (left; eexists; reflexivity) || (right; intros k; discriminate). }
  destruct Hcase as [[kid Hkid] | Hno].
  2: { destruct (Parser_bad_kid vm token t0 s Hp Hno) as (f & Hf & _).
       rewrite Hf in H. discriminate. }
  exists t0, kid.
  rewrite (Parser_run vm token t0 kid s Hp) in H; [| destruct vm; auto | exact Hkid].
  cbv zeta in H.
  destruct (Method_Verify D t0 (publicKeys s !! kid)) eqn:Hv.
  - destruct (_ =? 0) eqn:Hz; [| discriminate].
    apply Z.eqb_eq in Hz. injection H as <- <-. cbn. auto 7.
  - destruct (_ =? 0) eqn:Hz; [| discriminate].
    apply Z.eqb_eq in Hz. exfalso. exact (lor_signature_invalid _ Hz).
Qed.

Lemma PopulatePublicKey_nil_run s :
  args_URL s = None ->
  PopulatePublicKey D s
  = (Ok tt, mkState None (publicKeys s) (closeRespFn s) (requests s) (ticks s)
                    (EvRefresh :: trace s)).
Proof.
  intros HU. unfold PopulatePublicKey. unfold_run. cbn. rewrite HU.
  reflexivity.
Qed.

(** ** The validator *)

(** X6. An accepted token has a string for key identifier; its signature
    verifies under what the key set, as the call leaves it, holds for
    that identifier, which is a key of the set whenever verification
    refuses a missing key; and its claims were valid at a reading of the
    clock made during the call, the one of the parse that accepted it. *)
Theorem Validate_accepts_only_verified token dsecs s claims' s' :
  Validate D token dsecs s = (Ok claims', s') ->
  exists t0 kid n,
    ParseUnverified D token = inr t0
    /\ Header t0 !! "kid" = Some (VString kid)
    /\ Method_Verify D t0 (publicKeys s' !! kid) = true
    /\ ((forall t, Method_Verify D t None = false) ->
        exists key, publicKeys s' !! kid = Some key
                    /\ Method_Verify D t0 (Some key) = true)
    /\ (ticks s <= n < ticks s')%nat
    /\ MapClaims_Valid D (Claims t0) (Time_Unix (clock D n)) = 0
    /\ claims' = Claims t0.
Proof.
  intros H.
  destruct (Validate_Ok_claims _ _ _ _ _ _ H) as (t0 & Hp0 & ->).
  apply Validate_Ok_inv in H
    as (jwtToken & expAt & dflt & d & s2 & s3 & Hp & _ & _ & Hc & Hr).
  assert (publicKeys s' = publicKeys s2 /\ (ticks s2 < ticks s')%nat)
    as [HK HT].
  { rewrite clamp_duration_value in Hc. rewrite restamp_value in Hr.
    injection Hr as _ <-.
    destruct (_ <? dflt); injection Hc as _ <-; cbn; split; auto; lia. }
  assert (forall vm sq jwtToken',
            Parser_ParseWithClaims D vm token (keyFuncCallback D) sq
            = (inr jwtToken', s2) ->
            (ticks s <= ticks sq)%nat ->
            exists t1 kid n,
              ParseUnverified D token = inr t1
              /\ Header t1 !! "kid" = Some (VString kid)
              /\ Method_Verify D t1 (publicKeys s' !! kid) = true
              /\ ((forall t, Method_Verify D t None = false) ->
                  exists key, publicKeys s' !! kid = Some key
                              /\ Method_Verify D t1 (Some key) = true)
              /\ (ticks s <= n < ticks s')%nat
              /\ MapClaims_Valid D (Claims t1) (Time_Unix (clock D n)) = 0
              /\ Claims t0 = Claims t1) as Hfinal.
  { intros vm sq jwtToken' Hrun Hle.
    apply Parser_Ok_inv in Hrun
      as (t1 & kid & Hp1 & Hk & Hv & Hcl & _ & HKq & HTq).
    exists t1, kid, (ticks sq). rewrite HK, HKq.
    split; [exact Hp1 |]. split; [exact Hk |]. split; [exact Hv |].
    split.
    { intros Hnil. destruct (publicKeys sq !! kid) as [key |] eqn:E.
      - exists key. auto.
      - rewrite Hnil in Hv. discriminate. }
    split; [lia |]. split; [exact Hcl | congruence]. }
  apply parse_with_retry_run in Hp as (r1 & s1 & H1 & Hp).
  destruct r1 as [e1 | t1].
  - pose proof (Parser_ticks _ _ _ _ _ H1) as T1.
    destruct Hp as (r2 & sr & H2 & Hp).
    pose proof (PopulatePublicKey_frame _ _ _ _ H2) as (_ & T2 & _).
    destruct r2 as [u | err |].
    + destruct Hp as (r3 & H3 & Hr3). destruct r3 as [e3 | t3];
        [discriminate |].
      apply (Hfinal None sr t3 H3). lia.
    + destruct Hp as [Hp _]. discriminate.
    + destruct Hp as [Hp _]. discriminate.
  - destruct Hp as [_ ->]. apply (Hfinal _ s t1 H1). lia.
Qed.

(** X7. Without a key-set URL a call of [Validate] makes no request and
    leaves the key set as it is, however the token fares. *)
Theorem Validate_without_URL_is_local token dsecs s r s' :
  args_URL s = None ->
  Validate D token dsecs s = (r, s') ->
  requests s' = requests s
  /\ count is_get (trace s') = count is_get (trace s)
  /\ publicKeys s' = publicKeys s.
Proof.
  intros HU H.
  apply Validate_after_parse in H
    as (parsed & sp & Hp & _ & HK & HR & Htr & _).
  rewrite HK, HR, Htr. clear HK HR Htr.
  apply parse_with_retry_run in Hp as (r1 & s1 & H1 & Hp).
  pose proof (Parser_frame _ _ _ _ _ _ H1) as (U1 & K1 & _ & R1 & _ & _ & G1 & _).
  destruct r1 as [e1 | t1].
  - destruct Hp as (r2 & s2 & H2 & Hp).
    rewrite PopulatePublicKey_nil_run in H2 by congruence.
    injection H2 as <- <-.
    destruct Hp as (r3 & H3 & _).
    pose proof (Parser_frame _ None _ _ _ _ H3) as (_ & K3 & _ & R3 & _ & _ & G3 & _).
    cbn in *. repeat split; congruence.
  - destruct Hp as [_ ->]. auto.
Qed.

(** X8. A token that cannot even be decoded is never accepted, and no key
    is looked up for it; yet it sets off a refresh like any other failure
    of the first parse, and its decoding error is the result when that
    refresh returns nil. *)
Theorem Validate_malformed_token token dsecs e s r s' :
  ParseUnverified D token = inl e ->
  Validate D token dsecs s = (r, s') ->
  (forall claims', r <> Ok claims')
  /\ count is_refresh (trace s') = S (count is_refresh (trace s))
  /\ count is_lookup (trace s') = count is_lookup (trace s)
  /\ (forall s2,
        PopulatePublicKey D
          (mkState (args_URL s) (publicKeys s) (closeRespFn s) (requests s)
                   (ticks s) (EvParse :: trace s))
        = (Ok tt, s2) ->
        r = Err e).
Proof.
  intros Hp0 H.
  split.
  { intros claims' ->.
    destruct (Validate_Ok_claims _ _ _ _ _ _ H) as (t0 & Hp & _). congruence. }
  apply Validate_after_parse in H
    as (parsed & sp & Hp & _ & _ & _ & Htr & Herr & Hpanic).
  rewrite Htr. clear Htr.
  apply parse_with_retry_run in Hp as (r1 & s1 & H1 & Hp).
  rewrite (Parser_malformed _ _ _ _ Hp0) in H1. injection H1 as <- <-.
  destruct Hp as (r2 & s2 & H2 & Hp).
  pose proof (PopulatePublicKey_frame _ _ _ _ H2)
    as (_ & _ & _ & R2 & _ & L2 & _).
  cbn in R2, L2.
  destruct r2 as [u | err |].
  - destruct Hp as (r3 & H3 & ->).
    unfold jwtgo_ParseWithClaims in H3.
    rewrite (Parser_malformed _ _ _ _ Hp0) in H3. injection H3 as <- <-.
    cbn. repeat split; auto.
    intros s2' _. apply Herr. reflexivity.
  - destruct Hp as [-> ->]. repeat split; auto.
    intros s2' H2'. rewrite H2 in H2'. discriminate.
  - destruct Hp as [-> ->]. repeat split; auto.
    intros s2' H2'. rewrite H2 in H2'. discriminate.
Qed.

(** X9. A token whose header has no key identifier, or one that is not a
    string, is never accepted and no key is ever looked up for it; when
    the refresh returns nil the result is the parser's error for a key
    that cannot be found. *)
Theorem Validate_without_kid token dsecs t0 s r s' :
  ParseUnverified D token = inr t0 ->
  (forall kid, Header t0 !! "kid" <> Some (VString kid)) ->
  Validate D token dsecs s = (r, s') ->
  (forall claims', r <> Ok claims')
  /\ count is_lookup (trace s') = count is_lookup (trace s)
  /\ (forall s2,
        PopulatePublicKey D
          (mkState (args_URL s) (publicKeys s) (closeRespFn s) (requests s)
                   (ticks s) (EvParse :: trace s))
        = (Ok tt, s2) ->
        r = Err (ValidationError ValidationErrorUnverifiable)).
Proof.
  intros Hp0 Hkid H.
  apply Validate_after_parse in H
    as (parsed & sp & Hp & _ & _ & _ & Htr & Herr & Hpanic).
  rewrite Htr. clear Htr.
  apply parse_with_retry_run in Hp as (r1 & s1 & H1 & Hp).
  destruct (Parser_bad_kid (Some ValidMethods) token t0 s Hp0 Hkid)
    as (f1 & Hf1 & _).
  rewrite Hf1 in H1. injection H1 as <- <-.
  destruct Hp as (r2 & s2 & H2 & Hp).
  pose proof (PopulatePublicKey_frame _ _ _ _ H2)
    as (_ & _ & _ & _ & _ & L2 & _).
  cbn in L2.
  destruct r2 as [u | err |].
  - destruct Hp as (r3 & H3 & ->).
    destruct (Parser_bad_kid None token t0 s2 Hp0 Hkid) as (f3 & Hf3 & Hu).
    unfold jwtgo_ParseWithClaims in H3.
    rewrite Hf3 in H3. injection H3 as <- <-.
    destruct (Herr _ eq_refl) as [-> _]. rewrite (Hu eq_refl).
    cbn. split; [discriminate |]. split; [exact L2 | reflexivity].
  - destruct Hp as [-> ->]. destruct (Herr _ eq_refl) as [-> _].
    split; [discriminate |]. split; [exact L2 |].
    intros s2' H2'. rewrite H2 in H2'. discriminate.
  - destruct Hp as [-> ->]. destruct (Hpanic eq_refl) as [-> _].
    split; [discriminate |]. split; [exact L2 |].
    intros s2' H2'. rewrite H2 in H2'. discriminate.
Qed.

Lemma sat64_le_or_min (x : Z) : sat64 x <= x \/ sat64 x = minInt64.
Proof.
  unfold sat64, minInt64, maxInt64.
  destruct (x <? - 2 ^ 63) eqn:Ha; [right; reflexivity |].
  apply Z.ltb_ge in Ha. left.
  destruct (2 ^ 63 - 1 <? x) eqn:Hb; [apply Z.ltb_lt in Hb; lia | lia].
Qed.

(** An expiry above 9223371974719179007 wraps around to an instant far in
    the past, and the time left to it is the least duration. *)
Lemma time_Unix_wraps :
  time_Unix 9223372036854774784 = -9223372036854776832 * Second
  /\ Time_Sub (time_Unix 9223372036854774784) (time_Unix 1000) = minInt64.
Proof. split; vm_compute; reflexivity. Qed.

(** Wrapping never moves an expiry after the epoch to a later instant. *)
Lemma time_Unix_le (sec : Z) : 0 <= sec -> time_Unix sec <= sec * Second.
Proof.
  intros H. unfold time_Unix, wrap64, unixToInternal, Second.
  pose proof (Z.mod_le (sec + 62135596800 + 2 ^ 63) (2 ^ 64)
                ltac:(lia) ltac:(lia)).
  lia.
Qed.

(** With a clock that reads instants of the [int64] era and moves on by
    less than a second from one reading to the next, the branch that sets
    the expiry claim again is not taken. *)
Lemma no_restamp (expAt dflt : Z) s :
  0 <= expAt ->
  (forall i, 0 <= clock D i <= maxInt64) ->
  (forall i, clock D (S i) - clock D i < Second) ->
  let run := clamp_duration D expAt dflt s in
  (expAt <? Time_Unix (Time_Add (clock D (ticks (snd run))) (fst run))) = false.
Proof.
  intros Hexp Hrange Hstep. cbv zeta. rewrite clamp_duration_value.
  pose proof (time_Unix_le expAt Hexp) as HE.
  assert (forall i, Time_Sub (time_Unix expAt) (clock D i)
                    <= time_Unix expAt - clock D i
                    \/ Time_Sub (time_Unix expAt) (clock D i) = minInt64)
    as Hsub by (intros i; apply sat64_le_or_min).
  apply Z.ltb_ge. unfold Time_Unix, Time_Add.
  assert (forall x, x < (expAt + 1) * Second -> x / Second <= expAt) as Hdiv.
  { intros x Hx. apply Z.lt_succ_r. apply Z.div_lt_upper_bound;
      unfold Second in *; lia. }
  destruct (_ <? dflt) eqn:Hlt; cbn [fst snd ticks]; apply Hdiv.
  - pose proof (Hrange (S (S (ticks s)))) as Hr. pose proof (Hrange (S (ticks s))).
    pose proof (Hstep (S (ticks s))).
    destruct (Hsub (S (ticks s))) as [Hs | Hs];
      [| rewrite Hs]; unfold minInt64, maxInt64, Second in *; lia.
  - apply Z.ltb_ge in Hlt.
    pose proof (Hrange (S (ticks s))) as Hr. pose proof (Hrange (ticks s)).
    pose proof (Hstep (ticks s)).
    destruct (Hsub (ticks s)) as [Hs | Hs];
      [| rewrite Hs in Hlt]; unfold minInt64, maxInt64, Second in *; lia.
Qed.

(** From the parses to the result, for a token whose expiry and requested
    duration are in order. *)
Lemma Validate_finish token dsecs s jwtToken s2 expAt dflt :
  parse_with_retry D token s = (Ok jwtToken, s2) ->
  expToInt64 (float_indef D) (default VNil (Claims jwtToken !! "exp"))
  = inr expAt ->
  GetDefaultExpiration dsecs = inr dflt ->
  0 <= expAt ->
  (forall i, 0 <= clock D i <= maxInt64) ->
  (forall i, clock D (S i) - clock D i < Second) ->
  exists s',
    Validate D token dsecs s = (Ok (Claims jwtToken), s')
    /\ args_URL s' = args_URL s2 /\ publicKeys s' = publicKeys s2
    /\ requests s' = requests s2 /\ trace s' = trace s2.
Proof.
  intros Hp He Hd Hexp Hrange Hstep.
  destruct (parse_with_retry_ok _ _ _ _ _ Hp) as (_ & _ & _ & Hv).
  pose proof (no_restamp expAt dflt s2 Hexp Hrange Hstep) as Hno.
  cbv zeta in Hno.
  unfold Validate, bind. rewrite Hp, Hv. cbn [negb]. rewrite He, Hd.
  destruct (clamp_duration D expAt dflt s2) as [d s3] eqn:Hc.
  pose proof (clamp_duration_frame _ _ _ _ _ _ Hc) as (HU & HK & _ & HR & HT).
  cbn [fst snd] in Hno. rewrite restamp_value, Hno.
  eexists. split; [reflexivity |]. cbn. auto.
Qed.

(** X10. A token of an allowed method whose signature verifies under the
    cached key of its identifier, and whose claims are valid now, is
    accepted as it stands: the claims come back as decoded, one key is
    looked up, and there is no refresh and no request. (The clock is taken
    to read instants of the [int64] era, less than a second apart.) *)
Theorem Validate_cached_key token dsecs s t0 kid expAt dflt :
  ParseUnverified D token = inr t0 ->
  existsb (String.eqb (Method_Alg t0)) ValidMethods = true ->
  Header t0 !! "kid" = Some (VString kid) ->
  Method_Verify D t0 (publicKeys s !! kid) = true ->
  MapClaims_Valid D (Claims t0) (Time_Unix (clock D (ticks s))) = 0 ->
  expToInt64 (float_indef D) (default VNil (Claims t0 !! "exp")) = inr expAt ->
  GetDefaultExpiration dsecs = inr dflt ->
  0 <= expAt ->
  (forall i, 0 <= clock D i <= maxInt64) ->
  (forall i, clock D (S i) - clock D i < Second) ->
  exists s',
    Validate D token dsecs s = (Ok (Claims t0), s')
    /\ publicKeys s' = publicKeys s
    /\ requests s' = requests s
    /\ trace s' = EvVerify :: EvLookup kid :: EvParse :: trace s.
Proof.
  intros Hp Halg Hkid Hv Hc He Hd Hexp Hrange Hstep.
  pose proof (Parser_run (Some ValidMethods) token t0 kid s Hp Halg Hkid) as H1.
  cbv zeta in H1. rewrite Hv, Hc in H1. cbn [Z.eqb] in H1.
  assert (parse_with_retry D token s
          = (Ok (mkToken (Raw t0) (Method_Alg t0) (Header t0) (Claims t0) true),
             mkState (args_URL s) (publicKeys s) (closeRespFn s) (requests s)
                     (S (ticks s))
                     (EvVerify :: EvLookup kid :: EvParse :: trace s))) as Hpr.
  { unfold parse_with_retry, bind. rewrite H1. reflexivity. }
  destruct (Validate_finish token dsecs s _ _ expAt dflt Hpr He Hd Hexp Hrange Hstep)
    as (s' & HV & _ & HK & HR & HT).
  exists s'. auto.
Qed.



(** ** Configuration and decoding *)

(** X13. A configuration with a key-set URL in force that returns nil has
    fetched the document of that URL with one request, and the key set it
    returns is the one of that document, whatever the arguments held. *)
Theorem LookupConfig_loads_keys s s' :
  LookupConfig D s = (Ok tt, s') ->
  let urlStr := match args_URL s with Some u => URL_String u | None => "" end in
  let jwksURL := env_Get D EnvIAMJWKSURL urlStr in
  jwksURL <> "" ->
  exists u resp jwk l,
    ParseURL D jwksURL = inr u
    /\ http_Get D (URL_String u) (requests s) = inr resp
    /\ StatusCode resp = StatusOK
    /\ json_Decode D (Body resp) = inr jwk
    /\ decoded_keys D (Keys jwk) = Some l
    /\ args_URL s' = Some u
    /\ publicKeys s' = new_key_set D l
    /\ requests s' = S (requests s).
Proof.
  unfold LookupConfig. unfold_run. cbn zeta beta iota.
  set (urlStr := match args_URL s with Some u => URL_String u | None => "" end).
  set (jwksURL := env_Get D EnvIAMJWKSURL urlStr).
  intros H Hne.
  destruct (String.eqb_spec jwksURL "") as [E | _]; [contradiction |].
  destruct (ParseURL D jwksURL) as [err | u] eqn:Hu; [discriminate |].
  destruct (PopulatePublicKey_Ok_inv _ _ u H eq_refl)
    as (resp & jwk & l & HG & HS & HJ & HL & _ & ->).
  exists u, resp, jwk, l. cbn in *. auto 9.
Qed.

(** X14. Decoding a configuration replaces the whole receiver: what was
    cached is gone and no [closeRespFn] is left, so that a refresh made
    right after it returns nil only when the document has no URL, without
    fetching anything. A document that cannot be decoded leaves the
    receiver as it was. *)
Theorem UnmarshalJSON_resets_receiver
    (json_Unmarshal : string -> Error + option URL) (data : string) s res s1 :
  UnmarshalJSON D json_Unmarshal data s = (res, s1) ->
  match res with
  | Some err => json_Unmarshal data = inl err /\ s1 = s
  | None =>
      json_Unmarshal data = inr (args_URL s1)
      /\ publicKeys s1 = ∅ /\ closeRespFn s1 = false
      /\ forall r s2, PopulatePublicKey D s1 = (r, s2) -> r = Ok tt ->
           args_URL s1 = None /\ publicKeys s2 = ∅
           /\ requests s2 = requests s1
  end.
Proof.
  unfold UnmarshalJSON, bind, ret.
  destruct (json_Unmarshal data) as [err | url] eqn:Hj.
  { intros H. injection H as <- <-. auto. }
  intros H.
  assert (res = None
          /\ s1 = mkState url ∅ false (requests s) (ticks s) (trace s))
    as [-> ->].
  { destruct (match url with Some _ => _ | None => _ end) in H;
      cbn in H; injection H as <- <-; auto. }
  clear H. cbv beta iota.
  do 3 (split; [reflexivity |]).
  intros r s2 H ->.
  repeat split.
  - destruct url as [u |]; [| reflexivity].
    exfalso.
    destruct (PopulatePublicKey_Ok_inv _ _ u H eq_refl)
      as (_ & _ & _ & _ & _ & _ & _ & HC & _).
    discriminate.
  - destruct url as [u |].
    + exfalso.
      destruct (PopulatePublicKey_Ok_inv _ _ u H eq_refl)
        as (_ & _ & _ & _ & _ & _ & _ & HC & _).
      discriminate.
    + rewrite PopulatePublicKey_nil_run in H by reflexivity.
      injection H as <-. reflexivity.
  - destruct url as [u |].
    + exfalso.
      destruct (PopulatePublicKey_Ok_inv _ _ u H eq_refl)
        as (_ & _ & _ & _ & _ & _ & _ & HC & _).
      discriminate.
    + rewrite PopulatePublicKey_nil_run in H by reflexivity.
      injection H as <-. reflexivity.
Qed.

End MoreProperties.

(** ** The further properties on the deployment *)

(** A refresh that replaces one cached key by the two of the document. *)
Lemma PopulatePublicKey_closes_body_witness :
  let s := fx_state dep_two_keys (Some fx_url) fx_old_keys in
  let res := PopulatePublicKey dep_two_keys s in
  PopulatePublicKey dep_two_keys s = (Ok tt, snd res)
  /\ count is_close (trace (snd res)) = 1%nat.
Proof.
  intros s res.
  assert (PopulatePublicKey dep_two_keys s = (Ok tt, snd res)) as Hrun
    by (apply run_result; vm_compute; reflexivity).
  split; [exact Hrun |].
  pose proof (PopulatePublicKey_closes_body dep_two_keys s (Ok tt) (snd res) Hrun)
    as H.
  cbv zeta in H. destruct H as [_ H].
  assert (@Ok unit tt <> Panic) as Hn by discriminate.
  specialize (H Hn). vm_compute in H. vm_compute. exact H.
Defined.

(** The key cached as "k0" is not in the document: it is gone. *)
Lemma PopulatePublicKey_drops_unlisted_witness :
  let s := fx_state dep_two_keys (Some fx_url) fx_old_keys in
  let res := PopulatePublicKey dep_two_keys s in
  let resp := mkResponse 200 "200 OK" "two-keys" in
  let jwk := mkJWKS [mkJWKey "k1" "RSA" "RS256" []; mkJWKey "k2" "RSA" "RS256" []] in
  PopulatePublicKey dep_two_keys s = (Ok tt, snd res)
  /\ args_URL s = Some fx_url
  /\ http_Get dep_two_keys (URL_String fx_url) (requests s) = inr resp
  /\ json_Decode dep_two_keys (Body resp) = inr jwk
  /\ (forall key, In key (Keys jwk) -> Kid key <> "k0")
  /\ publicKeys s !! "k0" = Some "k0-pub"
  /\ publicKeys (snd res) !! "k0" = None.
Proof.
  intros s res resp jwk.
  assert (PopulatePublicKey dep_two_keys s = (Ok tt, snd res)) as Hrun
    by (apply run_result; vm_compute; reflexivity).
  assert (args_URL s = Some fx_url) as HU by reflexivity.
  assert (http_Get dep_two_keys (URL_String fx_url) (requests s) = inr resp)
    as HG by (vm_compute; reflexivity).
  assert (json_Decode dep_two_keys (Body resp) = inr jwk) as HJ
    by (vm_compute; reflexivity).
  assert (forall key, In key (Keys jwk) -> Kid key <> "k0") as Hkid.
  { intros key [<- | [<- | []]]; discriminate. }
  repeat (split; [assumption |]).
  split; [vm_compute; reflexivity |].
  exact (PopulatePublicKey_drops_unlisted dep_two_keys s (snd res) fx_url resp
           jwk "k0" Hrun HU HG HJ Hkid).
Defined.

(** The identifier "k2" of the document's last entry. *)
Lemma PopulatePublicKey_last_entry_wins_witness :
  let s := fx_state dep_two_keys (Some fx_url) fx_old_keys in
  let res := PopulatePublicKey dep_two_keys s in
  let resp := mkResponse 200 "200 OK" "two-keys" in
  let k1 := mkJWKey "k1" "RSA" "RS256" [] in
  let k2 := mkJWKey "k2" "RSA" "RS256" [] in
  let jwk := mkJWKS [k1; k2] in
  PopulatePublicKey dep_two_keys s = (Ok tt, snd res)
  /\ args_URL s = Some fx_url
  /\ http_Get dep_two_keys (URL_String fx_url) (requests s) = inr resp
  /\ json_Decode dep_two_keys (Body resp) = inr jwk
  /\ Keys jwk = ([k1] ++ k2 :: [])%list
  /\ (forall key', In key' [] -> Kid key' <> Kid k2)
  /\ exists publicKey,
       DecodePublicKey dep_two_keys k2 = inr publicKey
       /\ publicKeys (snd res) !! Kid k2 = Some publicKey.
Proof.
  intros s res resp k1 k2 jwk.
  assert (PopulatePublicKey dep_two_keys s = (Ok tt, snd res)) as Hrun
    by (apply run_result; vm_compute; reflexivity).
  assert (args_URL s = Some fx_url) as HU by reflexivity.
  assert (http_Get dep_two_keys (URL_String fx_url) (requests s) = inr resp)
    as HG by (vm_compute; reflexivity).
  assert (json_Decode dep_two_keys (Body resp) = inr jwk) as HJ
    by (vm_compute; reflexivity).
  assert (Keys jwk = ([k1] ++ k2 :: [])%list) as Hsplit by reflexivity.
  assert (forall key', In key' [] -> Kid key' <> Kid k2) as Hlast
    by (intros key' []).
  repeat (split; [assumption |]).
  exact (PopulatePublicKey_last_entry_wins dep_two_keys s (snd res) fx_url resp
           jwk [k1] k2 [] Hrun HU HG HJ Hsplit Hlast).
Defined.

(** An accepted RS256 token of the cached key "k1". *)
Lemma Validate_accepts_only_verified_witness :
  let s := fx_state dep_two_keys (Some fx_url) fx_known_keys in
  let s' := snd (Validate dep_two_keys "RS256" "" s) in
  Validate dep_two_keys "RS256" "" s = (Ok fx_claims, s')
  /\ exists t0 kid n,
       ParseUnverified dep_two_keys "RS256" = inr t0
       /\ Header t0 !! "kid" = Some (VString kid)
       /\ Method_Verify dep_two_keys t0 (publicKeys s' !! kid) = true
       /\ ((forall t, Method_Verify dep_two_keys t None = false) ->
           exists key, publicKeys s' !! kid = Some key
                       /\ Method_Verify dep_two_keys t0 (Some key) = true)
       /\ (ticks s <= n < ticks s')%nat
       /\ MapClaims_Valid dep_two_keys (Claims t0)
            (Time_Unix (clock dep_two_keys n)) = 0
       /\ fx_claims = Claims t0.
Proof.
  intros s s'.
  assert (Validate dep_two_keys "RS256" "" s = (Ok fx_claims, s')) as Hrun
    by (apply run_result; vm_compute; reflexivity).
  split; [exact Hrun |].
  exact (Validate_accepts_only_verified dep_two_keys "RS256" "" s fx_claims s'
           Hrun).
Defined.

(** No URL and a token of a key that is not cached: the refresh is made,
    to no effect, and the token is turned down. *)
Lemma Validate_without_URL_is_local_witness :
  let s := fx_state dep_two_keys None fx_old_keys in
  let res := Validate dep_two_keys "RS256" "" s in
  args_URL s = None
  /\ Validate dep_two_keys "RS256" "" s
     = (Err (ValidationError ValidationErrorSignatureInvalid), snd res)
  /\ count is_refresh (trace (snd res)) = 1%nat
  /\ requests (snd res) = requests s
  /\ count is_get (trace (snd res)) = count is_get (trace s)
  /\ publicKeys (snd res) = publicKeys s.
Proof.
  intros s res.
  assert (args_URL s = None) as HU by reflexivity.
  assert (Validate dep_two_keys "RS256" "" s
          = (Err (ValidationError ValidationErrorSignatureInvalid), snd res))
    as Hrun by (apply run_result; vm_compute; reflexivity).
  do 2 (split; [assumption |]).
  split; [vm_compute; reflexivity |].
  exact (Validate_without_URL_is_local dep_two_keys "RS256" "" s _ (snd res)
           HU Hrun).
Defined.

(** The empty string is no token. *)
Lemma Validate_malformed_token_witness :
  let s := fx_state dep_two_keys (Some fx_url) fx_known_keys in
  let e := ValidationError ValidationErrorMalformed in
  let r : Outcome MapClaims := Err e in
  let res := Validate dep_two_keys "" "" s in
  ParseUnverified dep_two_keys "" = inl e
  /\ Validate dep_two_keys "" "" s = (r, snd res)
  /\ (forall claims', r <> Ok claims')
  /\ count is_refresh (trace (snd res)) = S (count is_refresh (trace s))
  /\ count is_lookup (trace (snd res)) = count is_lookup (trace s)
  /\ (forall s2,
        PopulatePublicKey dep_two_keys
          (mkState (args_URL s) (publicKeys s) (closeRespFn s) (requests s)
                   (ticks s) (EvParse :: trace s))
        = (Ok tt, s2) ->
        r = Err e).
Proof.
  intros s e r res.
  assert (ParseUnverified dep_two_keys "" = inl e) as Hp by reflexivity.
  assert (Validate dep_two_keys "" "" s = (r, snd res)) as Hrun
    by (apply run_result; vm_compute; reflexivity).
  do 2 (split; [assumption |]).
  exact (Validate_malformed_token dep_two_keys "" "" e s r (snd res)
           Hp Hrun).
Defined.

(** A token whose header has no "kid". *)
Lemma Validate_without_kid_witness :
  let D := fx_deps_token fx_token_no_kid in
  let s := fx_state D (Some fx_url) fx_known_keys in
  let r : Outcome MapClaims :=
    Err (ValidationError ValidationErrorUnverifiable) in
  let res := Validate D "t" "" s in
  ParseUnverified D "t" = inr fx_token_no_kid
  /\ (forall kid, Header fx_token_no_kid !! "kid" <> Some (VString kid))
  /\ Validate D "t" "" s = (r, snd res)
  /\ (forall claims', r <> Ok claims')
  /\ count is_lookup (trace (snd res)) = count is_lookup (trace s)
  /\ (forall s2,
        PopulatePublicKey D
          (mkState (args_URL s) (publicKeys s) (closeRespFn s) (requests s)
                   (ticks s) (EvParse :: trace s))
        = (Ok tt, s2) ->
        r = Err (ValidationError ValidationErrorUnverifiable)).
Proof.
  intros D s r res.
  assert (ParseUnverified D "t" = inr fx_token_no_kid) as Hp by reflexivity.
  assert (forall kid, Header fx_token_no_kid !! "kid" <> Some (VString kid))
    as Hkid by (intros kid; vm_compute; discriminate).
  assert (Validate D "t" "" s = (r, snd res)) as Hrun
    by (apply run_result; vm_compute; reflexivity).
  do 3 (split; [assumption |]).
  exact (Validate_without_kid D "t" "" fx_token_no_kid s r (snd res)
           Hp Hkid Hrun).
Defined.

(** An RS256 token of the cached key "k1", 100 s before its expiry. *)
Lemma Validate_cached_key_witness :
  let D := dep_two_keys in
  let s := fx_state D (Some fx_url) fx_known_keys in
  let t0 := fx_token "RS256" in
  ParseUnverified D "RS256" = inr t0
  /\ existsb (String.eqb (Method_Alg t0)) ValidMethods = true
  /\ Header t0 !! "kid" = Some (VString "k1")
  /\ Method_Verify D t0 (publicKeys s !! "k1") = true
  /\ MapClaims_Valid D (Claims t0) (Time_Unix (clock D (ticks s))) = 0
  /\ expToInt64 (float_indef D) (default VNil (Claims t0 !! "exp")) = inr 1100
  /\ GetDefaultExpiration "" = inr (3600 * Second)
  /\ 0 <= 1100
  /\ (forall i, 0 <= clock D i <= maxInt64)
  /\ (forall i, clock D (S i) - clock D i < Second)
  /\ exists s',
       Validate D "RS256" "" s = (Ok (Claims t0), s')
       /\ publicKeys s' = publicKeys s
       /\ requests s' = requests s
       /\ trace s' = EvVerify :: EvLookup "k1" :: EvParse :: trace s.
Proof.
  intros D s t0.
  assert (ParseUnverified D "RS256" = inr t0) as H1 by reflexivity.
  assert (existsb (String.eqb (Method_Alg t0)) ValidMethods = true) as H2
    by (vm_compute; reflexivity).
  assert (Header t0 !! "kid" = Some (VString "k1")) as H3
    by (vm_compute; reflexivity).
  assert (Method_Verify D t0 (publicKeys s !! "k1") = true) as H4
    by (vm_compute; reflexivity).
  assert (MapClaims_Valid D (Claims t0) (Time_Unix (clock D (ticks s))) = 0)
    as H5 by (vm_compute; reflexivity).
  assert (expToInt64 (float_indef D) (default VNil (Claims t0 !! "exp"))
          = inr 1100) as H6 by (vm_compute; reflexivity).
  assert (GetDefaultExpiration "" = inr (3600 * Second)) as H7
    by (vm_compute; reflexivity).
  assert (0 <= 1100) as H8 by lia.
  assert (forall i, 0 <= clock D i <= maxInt64) as H9.
  { intros [| [| i]]; vm_compute; split; discriminate. }
  assert (forall i, clock D (S i) - clock D i < Second) as H10.
  { intros [| [| i]]; vm_compute; reflexivity. }
  repeat (split; [assumption |]).
  exact (Validate_cached_key D "RS256" "" s t0 "k1" 1100 (3600 * Second)
           H1 H2 H3 H4 H5 H6 H7 H8 H9 H10).
Defined.



(** The configuration of the deployment's URL. *)
Lemma LookupConfig_loads_keys_witness :
  let D := dep_two_keys in
  let s := fx_state D (Some fx_url) fx_old_keys in
  let res := LookupConfig D s in
  let urlStr := match args_URL s with Some u => URL_String u | None => "" end in
  let jwksURL := env_Get D EnvIAMJWKSURL urlStr in
  LookupConfig D s = (Ok tt, snd res)
  /\ jwksURL <> ""
  /\ publicKeys (snd res) !! "k0" = None
  /\ exists u resp jwk l,
       ParseURL D jwksURL = inr u
       /\ http_Get D (URL_String u) (requests s) = inr resp
       /\ StatusCode resp = StatusOK
       /\ json_Decode D (Body resp) = inr jwk
       /\ decoded_keys D (Keys jwk) = Some l
       /\ args_URL (snd res) = Some u
       /\ publicKeys (snd res) = new_key_set D l
       /\ requests (snd res) = S (requests s).
Proof.
  intros D s res urlStr jwksURL.
  assert (LookupConfig D s = (Ok tt, snd res)) as Hrun
    by (apply run_result; vm_compute; reflexivity).
  assert (jwksURL <> "") as Hne by (vm_compute; discriminate).
  do 2 (split; [assumption |]).
  split; [vm_compute; reflexivity |].
  exact (LookupConfig_loads_keys D s (snd res) Hrun Hne).
Defined.

(** A receiver with a cached key, decoded anew from a document with a
    URL. *)
Lemma UnmarshalJSON_resets_receiver_witness :
  let D := dep_two_keys in
  let s := fx_state D None fx_old_keys in
  let data := "https://idp.example/jwks" in
  let s1 := snd (UnmarshalJSON D fx_json_Unmarshal data s) in
  UnmarshalJSON D fx_json_Unmarshal data s = (None, s1)
  /\ publicKeys s !! "k0" = Some "k0-pub"
  /\ fst (PopulatePublicKey D s1) = Panic
  /\ fx_json_Unmarshal data = inr (args_URL s1)
  /\ publicKeys s1 = ∅ /\ closeRespFn s1 = false
  /\ forall r s2, PopulatePublicKey D s1 = (r, s2) -> r = Ok tt ->
       args_URL s1 = None /\ publicKeys s2 = ∅ /\ requests s2 = requests s1.
Proof.
  intros D s data s1.
  assert (UnmarshalJSON D fx_json_Unmarshal data s = (None, s1)) as Hrun
    by (apply run_result; vm_compute; reflexivity).
  split; [exact Hrun |].
  do 2 (split; [vm_compute; reflexivity |]).
  exact (UnmarshalJSON_resets_receiver D fx_json_Unmarshal data s None s1 Hrun).
Defined.
